(** * aguacate_mapas: aggregation, geo-join, logarithmic scale and compositing

    A shallow embedding of [src/aguacate_mapas.py].  The three entry points
    [plot_mapa_estatal], [plot_mapa_municipal] and [mapa_exportaciones] are
    followed statement by statement.  The tables read from the CSV files and
    the feature lists of the GeoJSON files are arguments; the calls that
    only style a figure (colours, fonts, annotations, the two tables of the
    state map) are left out, a figure being kept as the size it is rendered
    at.

    Numbers.  The script computes with IEEE doubles.  They are kept here as
    extended reals ([float64]): a finite real, one of the two infinities,
    or NaN; the special values are there because [np.log10], [Series.min]
    and [np.linspace] produce them on zero, negative or empty input.  The
    arithmetic of the scale ([np.log10], [np.linspace]) and the sums are
    exact: rounding error, the overflow of a sum, the wrap-around of an
    integer sum and signed zeros are not modelled, and a theorem whose
    truth depends on the value of a sum says in a hypothesis where the
    exact value is the value the script computes.  The text of a label
    depends on the last bit of the number printed.  There the division is
    the IEEE one ([dividir]: to nearest, ties to even), and the power
    [10 ** item], which the C library behind numpy computes, is a parameter
    of the model ([Plataforma]).

    Tables.  [pd.read_csv] gives every column of a table without rows the
    dtype [object], and the reductions called with [numeric_only=True] drop
    such columns; the scripts then fail on the first numeric column they
    ask for ([columna_numerica]).  A table with rows is taken to hold a
    number in every cell of its numeric columns.

    Errors and files.  An exception is a value ([resultado]); the scripts
    that touch the disk thread the set of files through ([IO]), and any of
    their disk calls may fail. *)

From Stdlib Require Import Reals Lra Lia ZArith List String Ascii.
From Stdlib Require Import Permutation Sorted OrdersEx DecimalString Zfloor RList.
From Stdlib Require Import DecimalPos DecimalZ.
From stdpp Require Import base strings gmap.

Open Scope R_scope.

(* ===================================================================== *)
(** ** Idealised doubles *)
(* ===================================================================== *)

Inductive float64 : Type :=
  | Fin (r : R)
  | PInf
  | NInf
  | NaN.

Definition isfinite (x : float64) : bool :=
  match x with Fin _ => true | _ => false end.

Definition isnan (x : float64) : bool :=
  match x with NaN => true | _ => false end.

Definition f_opp (x : float64) : float64 :=
  match x with
  | Fin r => Fin (- r)
  | PInf => NInf
  | NInf => PInf
  | NaN => NaN
  end.

Definition f_add (x y : float64) : float64 :=
  match x, y with
  | NaN, _ | _, NaN => NaN
  | Fin a, Fin b => Fin (a + b)
  | PInf, NInf | NInf, PInf => NaN
  | PInf, _ | _, PInf => PInf
  | NInf, _ | _, NInf => NInf
  end.

Definition f_sub (x y : float64) : float64 := f_add x (f_opp y).

(** An infinity of sign [pos] scaled by the finite factor [a]. *)
Definition inf_por (pos : bool) (a : R) : float64 :=
  if Rlt_dec 0 a then (if pos then PInf else NInf)
  else if Rlt_dec a 0 then (if pos then NInf else PInf)
  else NaN.

Definition f_mul (x y : float64) : float64 :=
  match x, y with
  | NaN, _ | _, NaN => NaN
  | Fin a, Fin b => Fin (a * b)
  | Fin a, PInf | PInf, Fin a => inf_por true a
  | Fin a, NInf | NInf, Fin a => inf_por false a
  | PInf, PInf | NInf, NInf => PInf
  | PInf, NInf | NInf, PInf => NInf
  end.

Definition f_inv (x : float64) : float64 :=
  match x with
  | Fin b => if Req_dec_T b 0 then PInf else Fin (/ b)
  | PInf | NInf => Fin 0
  | NaN => NaN
  end.

Definition f_div (x y : float64) : float64 := f_mul x (f_inv y).

(** [x == y] *)
Definition f_eqb (x y : float64) : bool :=
  match x, y with
  | Fin a, Fin b => if Req_dec_T a b then true else false
  | PInf, PInf | NInf, NInf => true
  | _, _ => false
  end.

(** [x >= y] *)
Definition f_ge (x y : float64) : bool :=
  match x, y with
  | NaN, _ | _, NaN => false
  | Fin a, Fin b => if Rle_dec b a then true else false
  | PInf, _ | _, NInf => true
  | _, _ => false
  end.

(** Minimum and maximum of two doubles neither of which is NaN. *)
Definition f_min (x y : float64) : float64 :=
  match x, y with
  | Fin a, Fin b => Fin (Rmin a b)
  | NInf, _ | _, NInf => NInf
  | PInf, z | z, PInf => z
  | NaN, z | z, NaN => z
  end.

Definition f_max (x y : float64) : float64 :=
  match x, y with
  | Fin a, Fin b => Fin (Rmax a b)
  | PInf, _ | _, PInf => PInf
  | NInf, z | z, NInf => z
  | NaN, z | z, NaN => z
  end.

(** [np.log10] on a real cell: [-inf] at zero, NaN below. *)
Definition log10 (x : R) : R := ln x / ln 10.

Definition np_log10 (x : R) : float64 :=
  if Rlt_dec 0 x then Fin (log10 x)
  else if Req_dec_T x 0 then NInf
  else NaN.

(** The power [10 ** item] computed without error. *)
Definition pow10 (item : float64) : float64 :=
  match item with
  | Fin t => Fin (Rpower 10 t)
  | PInf => PInf
  | NInf => Fin 0
  | NaN => NaN
  end.

(** [Series.min()] and [Series.max()]: NaN cells are skipped; the result is
    NaN when nothing is left. *)
Definition dropna (s : list float64) : list float64 :=
  List.filter (fun x => negb (isnan x)) s.

Definition series_min (s : list float64) : float64 :=
  match dropna s with
  | [] => NaN
  | x :: xs => fold_left f_min xs x
  end.

Definition series_max (s : list float64) : float64 :=
  match dropna s with
  | [] => NaN
  | x :: xs => fold_left f_max xs x
  end.

(** [np.linspace(start, stop, num)] with the default [endpoint=True]:
    [arange(0, num)] is scaled by the step (or, when the step is zero,
    divided first and then scaled by [delta]), shifted by [start], and the
    last entry is overwritten by [stop]. *)
Definition arange (num : nat) : list float64 :=
  map (fun i => Fin (INR i)) (seq 0 num).

Definition linspace (start stop : float64) (num : nat) : list float64 :=
  let div := (num - 1)%nat in
  let delta := f_sub stop start in
  let y := arange num in
  let y :=
    if (0 <? div)%nat then
      let step := f_div delta (Fin (INR div)) in
      if f_eqb step (Fin 0)
      then map (fun yi => f_mul (f_div yi (Fin (INR div))) delta) y
      else map (fun yi => f_mul yi step) y
    else map (fun yi => f_mul yi delta) y in
  let y := map (fun yi => f_add yi start) y in
  if (1 <? num)%nat then <[(num - 1)%nat := stop]> y else y.

(* ===================================================================== *)
(** ** Text: [str], [zfill] and the [",.Nf"] format *)
(* ===================================================================== *)

Definition decimal (n : N) : string := NilZero.string_of_uint (N.to_uint n).

(** [str(i)] for an integer *)
Definition str_int (i : Z) : string := NilZero.string_of_int (Z.to_int i).

Fixpoint ceros (n : nat) : string :=
  match n with
  | O => EmptyString
  | S n' => String "0" (ceros n')
  end.

(** [s.zfill(width)]: a leading sign stays in front of the padding. *)
Definition zfill (width : nat) (s : string) : string :=
  let pad := ceros (width - String.length s) in
  match s with
  | String c rest =>
      if (Ascii.eqb c "+" || Ascii.eqb c "-")%bool
      then String c (pad ++ rest)
      else pad ++ s
  | EmptyString => pad
  end.

(** Thousands separators, working on the digits from the right. *)
Fixpoint agrupar_rev (ds : list ascii) : list ascii :=
  match ds with
  | a :: b :: c :: ((_ :: _) as rest) =>
      a :: b :: c :: ","%char :: agrupar_rev rest
  | _ => ds
  end.

Definition separar_miles (s : string) : string :=
  string_of_list_ascii (rev (agrupar_rev (rev (list_ascii_of_string s)))).

(** Correct rounding to an integer, ties to even. *)
Definition redondeo_par (x : R) : Z :=
  let n := Zfloor x in
  let f := x - IZR n in
  if Rlt_dec f (1 / 2) then n
  else if Rlt_dec (1 / 2) f then (n + 1)%Z
  else if Z.even n then n else (n + 1)%Z.

(** The digits of [m / 10^prec] with separators, then, when [prec > 0], a
    point and the [prec] digits of [m mod 10^prec]. *)
Definition digitos (prec : nat) (m : N) : string :=
  let escala := (10 ^ N.of_nat prec)%N in
  separar_miles (decimal (m / escala))
  ++ (if (prec =? 0)%nat then EmptyString
      else String "." (zfill prec (decimal (m mod escala)))).

(** [format(x, ",.{prec}f")] *)
Definition format_f (prec : nat) (x : float64) : string :=
  match x with
  | NaN => "nan"
  | PInf => "inf"
  | NInf => "-inf"
  | Fin r =>
      (if Rlt_dec r 0 then "-" else "")
      ++ digitos prec (Z.to_N (redondeo_par (Rabs r * 10 ^ prec)))
  end.

(* ===================================================================== *)
(** ** Division of doubles *)
(* ===================================================================== *)

(** The binade of a real other than zero:
    [2^(mag x - 1) <= |x| < 2^(mag x)]. *)
Definition mag (x : R) : Z := (Zfloor (ln (Rabs x) / ln 2) + 1)%Z.

(** The exponent of the last bit of the doubles around [x]: 53 bits of
    precision, and nothing finer than [2^-1074]. *)
Definition exponente (x : R) : Z := Z.max (mag x - 53) (-1074).

(** IEEE 754 rounding of a real to binary64: to the nearest double, ties to
    the even significand, and to an infinity from [2^1024] on. *)
Definition redondear (x : R) : float64 :=
  if Req_dec_T x 0 then Fin 0
  else
    let e := exponente x in
    let r := IZR (redondeo_par (x * powerRZ 2 (- e))) * powerRZ 2 e in
    if Rle_dec (powerRZ 2 1024) (Rabs r)
    then (if Rlt_dec 0 x then PInf else NInf)
    else Fin r.

(** [x / y] on doubles: the quotient, rounded. *)
Definition dividir (x y : float64) : float64 :=
  match f_div x y with
  | Fin q => redondear q
  | q => q
  end.

(* ===================================================================== *)
(** ** Exceptions *)
(* ===================================================================== *)

(** The calls that touch the disk. *)
Inductive operacion : Type :=
  | WriteImage (path : string)
  | ImageOpen (path : string)
  | ImageSave (path : string)
  | OsRemove (path : string).

Inductive excepcion : Type :=
  | KeyError (clave : string)
  | TypeError
  | FileNotFoundError (path : string)
  | OSError (op : operacion).

Inductive resultado (A : Type) : Type :=
  | Ok (a : A)
  | Raise (e : excepcion).
Arguments Ok {A} a.
Arguments Raise {A} e.

#[global] Instance resultado_ret : MRet resultado := fun A a => Ok a.
#[global] Instance resultado_bind : MBind resultado := fun A B k m =>
  match m with
  | Ok a => k a
  | Raise e => Raise e
  end.

(** [try: cuerpo  except Exception as _: manejador] *)
Definition try_except {A} (cuerpo : resultado A)
    (manejador : excepcion -> resultado A) : resultado A :=
  match cuerpo with
  | Ok a => Ok a
  | Raise e => manejador e
  end.

(* ===================================================================== *)
(** ** Frames and [groupby] *)
(* ===================================================================== *)

(** What [df.loc[label, col]] hands back: a scalar when the label occurs
    once, a Series when it occurs several times. *)
Inductive celda (A : Type) : Type :=
  | Escalar (x : A)
  | Serie (xs : list A).
Arguments Escalar {A} x.
Arguments Serie {A} xs.

Section Frames.
Context {V : Type}.

(** An indexed frame: its rows in order, each under its index label. *)
Definition frame : Type := list (string * V).

Definition index (df : frame) : list string := map fst df.

Definition columna {A} (col : V -> A) (df : frame) : list A :=
  map (fun fila => col fila.2) df.

(** Put a row into a frame kept in ascending label order, reducing with
    [f] into the row that already carries the label. *)
Fixpoint upsert (f : V -> V -> V) (k : string) (v : V) (df : frame) : frame :=
  match df with
  | [] => [(k, v)]
  | (k', v') :: df' =>
      match String_as_OT.compare k k' with
      | Eq => (k', f v' v) :: df'
      | Lt => (k, v) :: df
      | Gt => (k', v') :: upsert f k v df'
      end
  end.

(** [filas.groupby(key).f(numeric_only=True)]: rows whose key is missing
    are dropped, each remaining key gets one row reduced with [f] in row
    order, and the keys come out sorted. *)
Definition groupby (f : V -> V -> V) (filas : list (option string * V)) : frame :=
  fold_left
    (fun acc fila =>
       match fila.1 with
       | Some k => upsert f k fila.2 acc
       | None => acc
       end)
    filas [].

(** [df.reset_index()]: the labels become an ordinary key column again. *)
Definition reset_index (df : frame) : list (option string * V) :=
  map (fun fila => (Some fila.1, fila.2)) df.

(** [df.loc[geo, col]] *)
Definition loc {A} (df : frame) (geo : string) (col : V -> A) : resultado (celda A) :=
  match List.filter (fun fila => String.eqb fila.1 geo) df with
  | [] => Raise (KeyError geo)
  | [fila] => Ok (Escalar (col fila.2))
  | filas => Ok (Serie (columna col filas))
  end.

(** [df.index = df.index.map(g)] *)
Definition index_map (g : string -> string) (df : frame) : frame :=
  map (fun fila => (g fila.1, fila.2)) df.

(** [df.sort_values(col, ascending=False)]; rows with equal cells keep
    their order here. *)
Fixpoint insertar_desc (col : V -> R) (fila : string * V) (df : frame) : frame :=
  match df with
  | [] => [fila]
  | otra :: df' =>
      if Rlt_dec (col fila.2) (col otra.2)
      then otra :: insertar_desc col fila df'
      else fila :: df
  end.

Definition sort_values_desc (col : V -> R) (df : frame) : frame :=
  fold_right (insertar_desc col) [] df.
End Frames.
Arguments frame V : clear implicits.

(* ===================================================================== *)
(** ** The datasets *)
(* ===================================================================== *)

(** The numeric columns of [siap_produccion.csv] that the maps use.  Every
    cell is taken to hold a number. *)
Record medidas : Type := {
  Volumenproduccion : R;
  Valorproduccion : R
}.

(** [.sum(numeric_only=True)] on two rows of a group *)
Definition sum_medidas (a b : medidas) : medidas :=
  {| Volumenproduccion := Volumenproduccion a + Volumenproduccion b;
     Valorproduccion := Valorproduccion a + Valorproduccion b |}.

Record fila_siap : Type := {
  Anio : Z;
  Nomestado : option string;
  Idestado : N;
  Idmunicipio : N;
  produccion : medidas
}.

(** An aggregated row once the ["log"] column has been added. *)
Record fila_log : Type := {
  medida : medidas;
  log : float64
}.

(** The numeric columns of [inegi_exportaciones.csv] that the map uses. *)
Record comercio : Type := {
  CANTIDAD : R;
  VAL_MNX : R
}.

(** [.max(numeric_only=True)] on two rows of a group *)
Definition max_comercio (a b : comercio) : comercio :=
  {| CANTIDAD := Rmax (CANTIDAD a) (CANTIDAD b);
     VAL_MNX := Rmax (VAL_MNX a) (VAL_MNX b) |}.

Record fila_inegi : Type := {
  ANIO : Z;
  TIPO : string;
  PAIS_O_D : option string;
  cifras : comercio
}.

(** [df[col]] for a numeric column [col] of a frame reduced with
    [numeric_only=True] from the table [csv]: the column is there when the
    table has a row. *)
Definition columna_numerica {A : Type} (csv : list A) (col : string)
    : resultado unit :=
  match csv with
  | [] => Raise (KeyError col)
  | _ :: _ => Ok tt
  end.

(** Features of the two GeoJSON catalogs, by the property each is joined on. *)
Record entidad : Type := { NOMGEO : string }.
Record municipio : Type := { CVEGEO : string }.

(** The arguments of [go.Choropleth] that carry data. *)
Record Choropleth : Type := {
  locations : list string;
  z : list (option (celda float64));
  zmin : float64;
  zmax : float64;
  tickvals : list float64;
  ticktext : list string
}.

(* ===================================================================== *)
(** ** The colour scale and its labels *)
(* ===================================================================== *)

(** [10 ** item] on a numpy double is the power function of the C library.
    IEEE 754 does not fix its last bit, so the model takes the function as
    it is given. *)
Class Plataforma : Type := {
  potencia : float64 -> float64
}.

(** The platform whose power is exact, on which the examples are run. *)
Definition plataforma_ideal : Plataforma := {| potencia := pow10 |}.

(** The body of [for item in marcas]: the text of one tick. *)
Definition etiqueta {P : Plataforma} (item : float64) : string :=
  let valor_original := potencia item in
  if f_ge valor_original (Fin 1000000) then
    format_f 1 (dividir (potencia item) (Fin 1000000)) ++ "M"
  else if f_ge valor_original (Fin 1000) then
    format_f 0 (dividir (potencia item) (Fin 1000)) ++ "k"
  else
    format_f 0 (potencia item).

Definition crear_etiquetas {P : Plataforma} (marcas : list float64) : list string :=
  fold_left (fun etiquetas item => etiquetas ++ [etiqueta item]) marcas [].

Record escala : Type := {
  min_val : float64;
  max_val : float64;
  marcas : list float64;
  etiquetas : list string
}.

(** From [min_val = df["log"].min()] to the end of the label loop. *)
Definition crear_escala {P : Plataforma} (columna_log : list float64) : escala :=
  let min_val := series_min columna_log in
  let max_val := series_max columna_log in
  let marcas := linspace min_val max_val 11 in
  {| min_val := min_val;
     max_val := max_val;
     marcas := marcas;
     etiquetas := crear_etiquetas marcas |}.

(* ===================================================================== *)
(** ** The geo-join *)
(* ===================================================================== *)

(** [for item in geojson["features"]]: the identifier is appended to
    [ubicaciones]; the looked-up cell, or [None] when the lookup raises, is
    appended to [valores]. *)
Fixpoint unir {F : Type} (propiedad : F -> string) (df : frame fila_log)
    (features : list F) (ubicaciones : list string)
    (valores : list (option (celda float64)))
    : resultado (list string * list (option (celda float64))) :=
  match features with
  | [] => Ok (ubicaciones, valores)
  | item :: resto =>
      let geo := propiedad item in
      let ubicaciones := ubicaciones ++ [geo] in
      valores ← try_except
                  (x ← loc df geo log; Ok (valores ++ [Some x]))
                  (fun _ => Ok (valores ++ [None]));
      unir propiedad df resto ubicaciones valores
  end.

(** The layer handed to [go.Choropleth]. *)
Definition capa {P : Plataforma} {F : Type} (propiedad : F -> string)
    (df : frame fila_log) (features : list F) : resultado Choropleth :=
  let e := crear_escala (columna log df) in
  '(ubicaciones, valores) ← unir propiedad df features [] [];
  Ok {| locations := ubicaciones;
        z := valores;
        zmin := min_val e;
        zmax := max_val e;
        tickvals := marcas e;
        ticktext := etiquetas e |}.

(* ===================================================================== *)
(** ** Raster files *)
(* ===================================================================== *)

(** An image: its size, and the size and position of what has been pasted
    on it. *)
Record Imagen : Type := {
  width : Z;
  height : Z;
  pegados : list ((Z * Z) * (Z * Z))
}.

Definition size (im : Imagen) : Z * Z := (width im, height im).

(** What [fig.write_image] renders for a figure laid out at [w] x [h]. *)
Definition figura (w h : Z) : Imagen :=
  {| width := w; height := h; pegados := [] |}.

(** [Image.new("RGB", size)] *)
Definition Image_new (size : Z * Z) : Imagen :=
  {| width := size.1; height := size.2; pegados := [] |}.

(** [result.paste(im=im, box=box)] *)
Definition paste (result im : Imagen) (box : Z * Z) : Imagen :=
  {| width := width result;
     height := height result;
     pegados := pegados result ++ [(size im, box)] |}.

(** The files on disk, and scripts that read and write them.  [falla] says
    which disk calls the environment makes fail; a failed call leaves the
    disk as it was. *)
Abbreviation disco := (gmap string Imagen).

Definition IO (A : Type) : Type := disco -> resultado A * disco.

#[global] Instance IO_ret : MRet IO := fun A a d => (Ok a, d).
#[global] Instance IO_bind : MBind IO := fun A B k m d =>
  match m d with
  | (Ok a, d') => k a d'
  | (Raise e, d') => (Raise e, d')
  end.

Definition elevar {A} (r : resultado A) : IO A := fun d => (r, d).

Section Disco.
Variable falla : operacion -> bool.

(** [fig.write_image(path)] for a figure laid out at [w] x [h] *)
Definition write_image (path : string) (w h : Z) : IO unit := fun d =>
  if falla (WriteImage path) then (Raise (OSError (WriteImage path)), d)
  else (Ok tt, <[path := figura w h]> d).

(** [Image.open(path)] *)
Definition Image_open (path : string) : IO Imagen := fun d =>
  if falla (ImageOpen path) then (Raise (OSError (ImageOpen path)), d)
  else match d !! path with
       | Some im => (Ok im, d)
       | None => (Raise (FileNotFoundError path), d)
       end.

(** [result.save(path)] *)
Definition Image_save (result : Imagen) (path : string) : IO unit := fun d =>
  if falla (ImageSave path) then (Raise (OSError (ImageSave path)), d)
  else (Ok tt, <[path := result]> d).

(** [os.remove(path)] *)
Definition os_remove (path : string) : IO unit := fun d =>
  if falla (OsRemove path) then (Raise (OSError (OsRemove path)), d)
  else match d !! path with
       | Some _ => (Ok tt, delete path d)
       | None => (Raise (FileNotFoundError path), d)
       end.
End Disco.

(** Lines 296-304: the map on top, the tables below. *)
Definition unir_imagenes (image1 image2 : Imagen) : Imagen :=
  let result_width := 1280%Z in
  let result_height := (height image1 + height image2)%Z in
  let result := Image_new (result_width, result_height) in
  let result := paste result image1 (0, 0)%Z in
  let result := paste result image2 (0, height image1)%Z in
  result.

(* ===================================================================== *)
(** ** [plot_mapa_estatal] *)
(* ===================================================================== *)

Definition renombrar (x : string) : string :=
  if String.eqb x "México" then "Estado de México" else x.

(** The frame [df] as it stands when the scale is built (lines 36-54). *)
Definition df_estatal (csv : list fila_siap) (año : Z) : frame fila_log :=
  let df := List.filter (fun r => Z.eqb (Anio r) año) csv in
  let df := groupby sum_medidas (map (fun r => (Nomestado r, produccion r)) df) in
  let df := map (fun fila =>
                   (fila.1,
                    {| Volumenproduccion := Volumenproduccion fila.2;
                       Valorproduccion := Valorproduccion fila.2 / 1000000 |})) df in
  let df := map (fun fila =>
                   (fila.1,
                    {| medida := fila.2;
                       log := np_log10 (Volumenproduccion fila.2) |})) df in
  let df := index_map renombrar df in
  sort_values_desc (fun fila => Volumenproduccion (medida fila)) df.

(** [f"./entidades_{año}.png"] *)
Definition entidades_png (año : Z) : string :=
  ("./entidades_" ++ str_int año ++ ".png")%string.

(** Line 42 asks for the column ["Valorproduccion"] of the grouped frame.
    The map figure is laid out at 1280 x 720 and written to [./0.png]; the
    figure with the two tables, at 1280 x 560, to [./1.png]. *)
Definition plot_mapa_estatal {P : Plataforma} (falla : operacion -> bool)
    (csv : list fila_siap) (geojson : list entidad) (año : Z) : IO unit :=
  _ ← elevar (columna_numerica csv "Valorproduccion");
  let df := df_estatal csv año in
  _ ← elevar (capa NOMGEO df geojson);
  write_image falla "./0.png" 1280 720;;
  write_image falla "./1.png" 1280 560;;
  image1 ← Image_open falla "./0.png";
  image2 ← Image_open falla "./1.png";
  let result := unir_imagenes image1 image2 in
  Image_save falla result (entidades_png año);;
  os_remove falla "./0.png";;
  os_remove falla "./1.png".

(* ===================================================================== *)
(** ** [plot_mapa_municipal] *)
(* ===================================================================== *)

Definition CVE (r : fila_siap) : string :=
  zfill 2 (decimal (Idestado r)) ++ zfill 3 (decimal (Idmunicipio r)).

(** The frame grouped by municipality key (lines 328-338). *)
Definition df_por_municipio (csv : list fila_siap) (año : Z) : frame medidas :=
  let df := List.filter (fun r => Z.eqb (Anio r) año) csv in
  groupby sum_medidas (map (fun r => (Some (CVE r), produccion r)) df).

(** The frame after the municipalities without production are removed
    (line 341). *)
Definition df_con_produccion (csv : list fila_siap) (año : Z) : frame medidas :=
  List.filter
    (fun fila => if Req_dec_T (Volumenproduccion fila.2) 0 then false else true)
    (df_por_municipio csv año).

(** The frame with its ["log"] column (line 344). *)
Definition df_municipal (csv : list fila_siap) (año : Z) : frame fila_log :=
  map (fun fila =>
         (fila.1,
          {| medida := fila.2; log := np_log10 (Volumenproduccion fila.2) |}))
      (df_con_produccion csv año).

(** The outline layer: every state, each with the value 1. *)
Definition capa_borde (geojson_borde : list entidad) : list string * list Z :=
  fold_left
    (fun acc item =>
       let geo := NOMGEO item in
       (acc.1 ++ [geo], acc.2 ++ [1%Z]))
    geojson_borde ([], []).

(** Line 341 asks for the column ["Volumenproduccion"] of the grouped
    frame. *)
Definition plot_mapa_municipal {P : Plataforma} (falla : operacion -> bool)
    (csv : list fila_siap) (geojson : list municipio)
    (geojson_borde : list entidad) (año : Z) : IO unit :=
  _ ← elevar (columna_numerica csv "Volumenproduccion");
  let df := df_municipal csv año in
  _ ← elevar (capa CVEGEO df geojson);
  let _ := capa_borde geojson_borde in
  write_image falla ("./municipios_" ++ str_int año ++ ".png") 7680 4320.

(* ===================================================================== *)
(** ** [mapa_exportaciones] *)
(* ===================================================================== *)

(** [columna.fillna(valor)] *)
Definition fillna (valor : string) (x : option string) : option string :=
  match x with
  | Some s => Some s
  | None => Some valor
  end.

(** The rows kept for the year, with the key filled in (lines 575-581). *)
Definition exportaciones (csv : list fila_inegi) (año : Z) : list fila_inegi :=
  let df := List.filter (fun r => Z.eqb (ANIO r) año) csv in
  let df := List.filter (fun r => String.eqb (TIPO r) "Exportaciones") df in
  map (fun r => {| ANIO := ANIO r; TIPO := TIPO r;
                   PAIS_O_D := fillna "TOTAL" (PAIS_O_D r);
                   cifras := cifras r |}) df.

(** The frame grouped by destination (line 586). *)
Definition df_exportaciones (csv : list fila_inegi) (año : Z) : frame comercio :=
  groupby max_comercio
    (map (fun r => (PAIS_O_D r, cifras r)) (exportaciones csv año)).

(** A cell that goes into an f-string with a float format. *)
Definition escalar {A} (c : celda A) : resultado A :=
  match c with
  | Escalar x => Ok x
  | Serie _ => Raise TypeError
  end.

Definition subtitulo_exportaciones (df : frame comercio) : resultado string :=
  cantidad ← loc df "TOTAL" CANTIDAD ≫= escalar;
  valor ← loc df "TOTAL" VAL_MNX ≫= escalar;
  Ok ("Total: " ++ format_f 0 (f_div (Fin cantidad) (Fin 1000))
      ++ " toneladas con un valor de " ++ format_f 0 (Fin valor) ++ " pesos")%string.

(** Line 592 looks up the column ["CANTIDAD"] of the grouped frame first,
    then the row ["TOTAL"]. *)
Definition mapa_exportaciones (falla : operacion -> bool)
    (csv : list fila_inegi) (año : Z) : IO unit :=
  let df := df_exportaciones csv año in
  _ ← elevar (columna_numerica csv "CANTIDAD");
  _ ← elevar (subtitulo_exportaciones df);
  write_image falla ("./exportaciones_" ++ str_int año ++ ".png") 7680 4320.

(* ===================================================================== *)
(** ** Subtitles, tables and the script body *)
(* ===================================================================== *)

(** [Series.sum()] *)
Definition series_sum (s : list R) : R := fold_left Rplus s 0.

(** The frame grouped by state (lines 36-39). *)
Definition df_por_entidad (csv : list fila_siap) (año : Z) : frame medidas :=
  let df := List.filter (fun r => Z.eqb (Anio r) año) csv in
  groupby sum_medidas (map (fun r => (Nomestado r, produccion r)) df).

(** The frame of the state map when its subtitle is computed, before it is
    sorted (lines 36-48). *)
Definition df_renombrado (csv : list fila_siap) (año : Z) : frame fila_log :=
  let df := df_por_entidad csv año in
  let df := map (fun fila =>
                   (fila.1,
                    {| Volumenproduccion := Volumenproduccion fila.2;
                       Valorproduccion := Valorproduccion fila.2 / 1000000 |})) df in
  let df := map (fun fila =>
                   (fila.1,
                    {| medida := fila.2;
                       log := np_log10 (Volumenproduccion fila.2) |})) df in
  index_map renombrar df.

(** Line 51: the national totals under the state map. *)
Definition subtitulo_estatal (df : frame fila_log) : string :=
  ("Nacional: "
   ++ format_f 0 (Fin (series_sum
                         (columna (fun fila => Volumenproduccion (medida fila)) df)))
   ++ " toneladas ("
   ++ format_f 0 (Fin (series_sum
                         (columna (fun fila => Valorproduccion (medida fila)) df)))
   ++ " MDP)")%string.

(** Line 347: the national totals under the municipal map. *)
Definition subtitulo_municipal (df : frame fila_log) : string :=
  ("Nacional: <b>"
   ++ format_f 0 (Fin (series_sum
                         (columna (fun fila => Volumenproduccion (medida fila)) df)))
   ++ "</b> toneladas (con un valor de: <b>"
   ++ format_f 0 (f_div
                    (Fin (series_sum
                            (columna (fun fila => Valorproduccion (medida fila)) df)))
                    (Fin 1000000))
   ++ "</b> millones de pesos)")%string.

(** The rows of the two tables under the state map: [df[:16]] and
    [df[16:]]. *)
Definition tablas (df : frame fila_log) : frame fila_log * frame fila_log :=
  (firstn 16 df, skipn 16 df).

(** [f"./municipios_{año}.png"] and [f"./exportaciones_{año}.png"] *)
Definition municipios_png (año : Z) : string :=
  ("./municipios_" ++ str_int año ++ ".png")%string.

Definition exportaciones_png (año : Z) : string :=
  ("./exportaciones_" ++ str_int año ++ ".png")%string.

(** The body run under [if __name__ == "__main__"]; every call reads the
    same two tables and the same two catalogs. *)
Definition main {P : Plataforma} (falla : operacion -> bool)
    (siap : list fila_siap) (inegi : list fila_inegi)
    (mexico : list entidad) (mexico2023 : list municipio) : IO unit :=
  plot_mapa_estatal falla siap mexico 2004;;
  plot_mapa_estatal falla siap mexico 2023;;
  plot_mapa_municipal falla siap mexico2023 mexico 2004;;
  plot_mapa_municipal falla siap mexico2023 mexico 2023;;
  mapa_exportaciones falla inegi 2004;;
  mapa_exportaciones falla inegi 2023.

(* ===================================================================== *)
(** ** Vocabulary of the statements *)
(* ===================================================================== *)

(** Python's [x < y] and [x <= y] on doubles, as propositions. *)
Definition f_lt (x y : float64) : Prop :=
  match x, y with
  | Fin a, Fin b => a < b
  | NInf, Fin _ | NInf, PInf | Fin _, PInf => True
  | _, _ => False
  end.

Definition f_le (x y : float64) : Prop :=
  match x, y with
  | Fin a, Fin b => a <= b
  | NInf, Fin _ | NInf, PInf | Fin _, PInf | NInf, NInf | PInf, PInf => True
  | _, _ => False
  end.

Definition no_decreciente (l : list float64) : Prop :=
  forall (i j : nat) (x y : float64),
    l !! i = Some x -> l !! j = Some y -> (i <= j)%nat -> f_le x y.

Definition creciente (l : list float64) : Prop :=
  forall (i j : nat) (x y : float64),
    l !! i = Some x -> l !! j = Some y -> (i < j)%nat -> f_lt x y.

Definition acotada (e : escala) : Prop :=
  Forall (fun t => f_le (min_val e) t /\ f_le t (max_val e)) (marcas e).

(** The invariant the data model asks of a colour scale. *)
Definition invariante_escala (e : escala) : Prop :=
  acotada e /\ creciente (marcas e).

(** The ticks that linear interpolation puts between [lo] and [hi]. *)
Definition interpolacion (lo hi : R) : list R :=
  map (fun i => lo + INR i * (hi - lo) / 10) (seq 0 11).

(** [n] is an integer nearest to [x]. *)
Definition es_redondeo (x : R) (n : Z) : Prop := Rabs (x - IZR n) <= 1 / 2.

(** The value a feature gets in the joined layer. *)
Definition valor_unido (df : frame fila_log) (geo : string)
    : option (celda float64) :=
  match loc df geo log with
  | Ok c => Some c
  | Raise _ => None
  end.

(** Vertical stacking as the data model describes it. *)
Definition apilado_vertical (image1 image2 result : Imagen) : Prop :=
  width result = Z.max (width image1) (width image2)
  /\ height result = (height image1 + height image2)%Z
  /\ pegados result =
       [(size image1, (0, 0)%Z); (size image2, (0, height image1)%Z)].

(** Labels in strictly ascending order. *)
Definition ordenado (claves : list string) : Prop :=
  StronglySorted String_as_OT.lt claves.

(** The first row under a label. *)
Fixpoint buscar {V : Type} (k : string) (df : frame V) : option V :=
  match df with
  | [] => None
  | (k', v) :: df' => if String.eqb k k' then Some v else buscar k df'
  end.

(** The key a row of the export table is grouped under. *)
Definition clave_destino (r : fila_inegi) : string :=
  match PAIS_O_D r with
  | Some k => k
  | None => "TOTAL"
  end.

(** The rows of the export table that are grouped: the exports of the year. *)
Definition filas_exportadas (csv : list fila_inegi) (año : Z) : list fila_inegi :=
  List.filter (fun r => String.eqb (TIPO r) "Exportaciones")
    (List.filter (fun r => Z.eqb (ANIO r) año) csv).

(** [x] is the greatest value of the column [col] over the rows [grupo]. *)
Definition es_maximo (col : fila_inegi -> R) (grupo : list fila_inegi) (x : R) : Prop :=
  (exists r, In r grupo /\ col r = x) /\ forall r, In r grupo -> col r <= x.

(** Rows in non-increasing order of the column [col]. *)
Definition descendente {V : Type} (col : V -> R) (df : frame V) : Prop :=
  StronglySorted (fun a b => col b.2 <= col a.2) df.

(** The rows of the production table for one year. *)
Definition filas_del_año (csv : list fila_siap) (año : Z) : list fila_siap :=
  List.filter (fun r => Z.eqb (Anio r) año) csv.

(** The number a string of decimal digits denotes. *)
Definition leer_decimal (s : string) : option N :=
  option_map N.of_uint (NilEmpty.uint_of_string s).

(** The rows of a year that are grouped under the state [k]. *)
Definition filas_de_entidad (k : string) (filas : list fila_siap) : list fila_siap :=
  List.filter
    (fun r => match Nomestado r with Some k' => String.eqb k k' | None => false end)
    filas.

(** The rows of a year that carry a state name. *)
Definition filas_con_entidad (filas : list fila_siap) : list fila_siap :=
  List.filter (fun r => match Nomestado r with Some _ => true | None => false end)
              filas.

(** The sums of the model are exact.  A sum of cells none of which is
    negative and whose total is below [2^63] neither wraps around as an
    int64 sum nor overflows as a float64 sum: the script finds it zero,
    positive and finite exactly when the model does. *)
Definition sin_desbordamiento (cells : list R) : Prop :=
  Forall (fun v => 0 <= v) cells /\ series_sum cells < 2 ^ 63.

(** Whole numbers whose absolute values add up to less than [2^53] are
    added without error, as int64 and as float64, in whatever order: on
    such cells the sum of the script is the exact sum. *)
Definition enteros_acotados (cells : list R) : Prop :=
  Forall (fun v => exists n : Z, v = IZR n) cells
  /\ series_sum (map Rabs cells) < 2 ^ 53.

(** The volumes of the rows of a table. *)
Definition volumenes (filas : list fila_siap) : list R :=
  map (fun r => Volumenproduccion (produccion r)) filas.

Section Grupos.
Context {V : Type} (f : V -> V -> V).

(** One step of the grouping loop. *)
Definition paso (acc : frame V) (fila : option string * V) : frame V :=
  match fila.1 with
  | Some k => upsert f k fila.2 acc
  | None => acc
  end.

(** The cells under the key [k], in row order. *)
Definition valores_de (k : string) (filas : list (option string * V)) : list V :=
  map snd
    (List.filter
       (fun fila => match fila.1 with Some k' => String.eqb k k' | None => false end)
       filas).

(** The cells of a group reduced from the first one on. *)
Definition reducir (vs : list V) : option V :=
  match vs with
  | [] => None
  | v :: vs' => Some (fold_left f vs' v)
  end.
End Grupos.

(* ===================================================================== *)
(** * Properties *)
(* ===================================================================== *)

(** ** The geo-join *)

Lemma loc_ausente {V A : Type} (df : frame V) (geo : string) (col : V -> A) :
  ~ In geo (index df) -> loc df geo col = Raise (KeyError geo).
Proof.
  intros Hno. unfold loc.
  replace (List.filter (fun fila => String.eqb fila.1 geo) df) with (@nil (string * V)).
  - reflexivity.
  - induction df as [|[k v] df IH]; simpl in *; [reflexivity|].
    destruct (String.eqb_spec k geo) as [->|Hne].
    + exfalso. apply Hno. now left.
    + apply IH. intros Hin. apply Hno. now right.
Qed.

Lemma loc_presente {V A : Type} (df : frame V) (geo : string) (col : V -> A) :
  In geo (index df) -> exists c, loc df geo col = Ok c.
Proof.
  intros Hin. unfold loc.
  assert (Hne : List.filter (fun fila => String.eqb fila.1 geo) df <> []).
  { induction df as [|[k v] df IH]; simpl in *; [contradiction|].
    destruct (String.eqb_spec k geo) as [->|Hne]; [discriminate|].
    apply IH. destruct Hin as [Heq|Hin]; [contradiction|exact Hin]. }
  destruct (List.filter _ df) as [|fila [|otra resto]]; [contradiction| |]; eauto.
Qed.

Lemma filter_unico {V : Type} (df : frame V) (k : string) (v : V) :
  List.NoDup (index df) -> In (k, v) df ->
  List.filter (fun fila => String.eqb fila.1 k) df = [(k, v)].
Proof.
  induction df as [|[k' v'] df IH]; simpl; intros Hnd Hin; [contradiction|].
  apply List.NoDup_cons_iff in Hnd as [Hno Hnd].
  destruct Hin as [Heq|Hin].
  - injection Heq as -> ->. rewrite String.eqb_refl. f_equal.
    clear IH. induction df as [|[k2 v2] df IH]; simpl in *; [reflexivity|].
    destruct (String.eqb_spec k2 k) as [->|Hne].
    + exfalso. apply Hno. now left.
    + apply IH; [tauto|]. now apply List.NoDup_cons_iff in Hnd as [_ Hnd].
  - destruct (String.eqb_spec k' k) as [->|Hne].
    + exfalso. apply Hno. change k with (fst (k, v)). now apply in_map.
    + now apply IH.
Qed.

Lemma loc_unico {V A : Type} (df : frame V) (k : string) (v : V) (col : V -> A) :
  List.NoDup (index df) -> In (k, v) df -> loc df k col = Ok (Escalar (col v)).
Proof.
  intros Hnd Hin. unfold loc. now rewrite (filter_unico df k v Hnd Hin).
Qed.

Lemma valor_unido_ausente (df : frame fila_log) (geo : string) :
  ~ In geo (index df) -> valor_unido df geo = None.
Proof. intros H. unfold valor_unido. now rewrite loc_ausente. Qed.

Lemma unir_map {F : Type} (propiedad : F -> string) (df : frame fila_log)
    (features : list F) (ubicaciones : list string)
    (valores : list (option (celda float64))) :
  unir propiedad df features ubicaciones valores
  = Ok (ubicaciones ++ map propiedad features,
        valores ++ map (fun item => valor_unido df (propiedad item)) features).
Proof.
  revert ubicaciones valores.
  induction features as [|item resto IH]; intros ubicaciones valores; simpl.
  - now rewrite !app_nil_r.
  - unfold valor_unido at 1.
    destruct (loc df (propiedad item) log) as [c|e]; simpl;
      rewrite IH, <- !app_assoc; reflexivity.
Qed.

(** ** Logarithms, minima and maxima *)

Lemma ln_10_pos : 0 < ln 10.
Proof. rewrite <- ln_1. apply ln_increasing; lra. Qed.

Lemma log10_lt (x y : R) : 0 < x -> x < y -> log10 x < log10 y.
Proof.
  intros Hx Hxy. unfold log10.
  apply Rmult_lt_compat_r.
  - apply Rinv_0_lt_compat, ln_10_pos.
  - now apply ln_increasing.
Qed.

Lemma log10_le (x y : R) : 0 < x -> x <= y -> log10 x <= log10 y.
Proof.
  intros Hx [Hlt| ->]; [left; now apply log10_lt | right; reflexivity].
Qed.


Lemma np_log10_pos (x : R) : 0 < x -> np_log10 x = Fin (log10 x).
Proof. intros Hx. unfold np_log10. destruct (Rlt_dec 0 x); [reflexivity|contradiction]. Qed.

Lemma map_np_log10_pos (values : list R) :
  Forall (fun v => 0 < v) values ->
  map np_log10 values = map Fin (map log10 values).
Proof.
  induction 1 as [|v values Hv _ IH]; simpl; [reflexivity|].
  now rewrite np_log10_pos, IH.
Qed.

Lemma dropna_Fin (ys : list R) : dropna (map Fin ys) = map Fin ys.
Proof.
  unfold dropna. induction ys as [|y ys IH]; simpl; [reflexivity|now rewrite IH].
Qed.

Lemma fold_f_min_Fin (ys : list R) (y : R) :
  fold_left f_min (map Fin ys) (Fin y) = Fin (fold_left Rmin ys y).
Proof. revert y. induction ys as [|y' ys IH]; intros y; simpl; [reflexivity|apply IH]. Qed.

Lemma fold_f_max_Fin (ys : list R) (y : R) :
  fold_left f_max (map Fin ys) (Fin y) = Fin (fold_left Rmax ys y).
Proof. revert y. induction ys as [|y' ys IH]; intros y; simpl; [reflexivity|apply IH]. Qed.

Lemma fold_Rmin_spec (ys : list R) (y : R) :
  In (fold_left Rmin ys y) (y :: ys)
  /\ forall y', In y' (y :: ys) -> fold_left Rmin ys y <= y'.
Proof.
  revert y. induction ys as [|a ys IH]; intros y; simpl.
  - split; [now left|]. intros y' [<-|[]]. lra.
  - destruct (IH (Rmin y a)) as [Hin Hle]. split.
    + destruct Hin as [Heq|Hin]; [|now right; right].
      rewrite <- Heq. unfold Rmin. destruct (Rle_dec y a); [now left|right; now left].
    + intros y' Hy'.
      assert (Hm : fold_left Rmin ys (Rmin y a) <= Rmin y a) by (apply Hle; now left).
      destruct Hy' as [<-|[<-|Hy']].
      * pose proof (Rmin_l y a). lra.
      * pose proof (Rmin_r y a). lra.
      * apply Hle. now right.
Qed.

Lemma fold_Rmax_spec (ys : list R) (y : R) :
  In (fold_left Rmax ys y) (y :: ys)
  /\ forall y', In y' (y :: ys) -> y' <= fold_left Rmax ys y.
Proof.
  revert y. induction ys as [|a ys IH]; intros y; simpl.
  - split; [now left|]. intros y' [<-|[]]. lra.
  - destruct (IH (Rmax y a)) as [Hin Hle]. split.
    + destruct Hin as [Heq|Hin]; [|now right; right].
      rewrite <- Heq. unfold Rmax. destruct (Rle_dec y a); [right; now left|now left].
    + intros y' Hy'.
      assert (Hm : Rmax y a <= fold_left Rmax ys (Rmax y a)) by (apply Hle; now left).
      destruct Hy' as [<-|[<-|Hy']].
      * pose proof (Rmax_l y a). lra.
      * pose proof (Rmax_r y a). lra.
      * apply Hle. now right.
Qed.

Lemma series_min_Fin (ys : list R) :
  ys <> [] ->
  exists m, series_min (map Fin ys) = Fin m
            /\ In m ys /\ forall y, In y ys -> m <= y.
Proof.
  intros Hne. destruct ys as [|y ys]; [contradiction|].
  unfold series_min. rewrite dropna_Fin. cbn [map]. rewrite fold_f_min_Fin.
  eexists; split; [reflexivity|apply fold_Rmin_spec].
Qed.

Lemma series_max_Fin (ys : list R) :
  ys <> [] ->
  exists m, series_max (map Fin ys) = Fin m
            /\ In m ys /\ forall y, In y ys -> y <= m.
Proof.
  intros Hne. destruct ys as [|y ys]; [contradiction|].
  unfold series_max. rewrite dropna_Fin. cbn [map]. rewrite fold_f_max_Fin.
  eexists; split; [reflexivity|apply fold_Rmax_spec].
Qed.

Lemma MinRlist_In (l : list R) : l <> [] -> In (MinRlist l) l.
Proof.
  induction l as [|a [|b l] IH]; intros Hne; [contradiction|now left|].
  change (MinRlist (a :: b :: l)) with (Rmin a (MinRlist (b :: l))).
  unfold Rmin. destruct (Rle_dec a (MinRlist (b :: l))); [now left|].
  right. now apply IH.
Qed.

Lemma MaxRlist_In (l : list R) : l <> [] -> In (MaxRlist l) l.
Proof.
  intros Hne. apply MaxRlist_P2. destruct l as [|a l]; [contradiction|].
  exists a. now left.
Qed.

(** The log column of strictly positive values has the logarithms of the
    least and of the greatest value as its minimum and maximum. *)
Lemma series_min_log10 (values : list R) :
  values <> [] -> Forall (fun v => 0 < v) values ->
  series_min (map np_log10 values) = Fin (log10 (MinRlist values)).
Proof.
  intros Hne Hpos. rewrite map_np_log10_pos by assumption.
  destruct (series_min_Fin (map log10 values)) as (m & -> & Hin & Hle).
  { destruct values; [contradiction|discriminate]. }
  f_equal. apply in_map_iff in Hin as (v & <- & Hv).
  rewrite List.Forall_forall in Hpos.
  apply Rle_antisym.
  - apply Hle, in_map, MinRlist_In, Hne.
  - apply log10_le; [apply Hpos, MinRlist_In, Hne | now apply MinRlist_P1].
Qed.

Lemma series_max_log10 (values : list R) :
  values <> [] -> Forall (fun v => 0 < v) values ->
  series_max (map np_log10 values) = Fin (log10 (MaxRlist values)).
Proof.
  intros Hne Hpos. rewrite map_np_log10_pos by assumption.
  destruct (series_max_Fin (map log10 values)) as (m & -> & Hin & Hle).
  { destruct values; [contradiction|discriminate]. }
  f_equal. apply in_map_iff in Hin as (v & <- & Hv).
  rewrite List.Forall_forall in Hpos.
  apply Rle_antisym.
  - apply log10_le; [now apply Hpos | now apply MaxRlist_P1].
  - apply Hle, in_map, MaxRlist_In, Hne.
Qed.

(** ** [linspace] between finite bounds *)

Lemma f_div_Fin (a b : R) : b <> 0 -> f_div (Fin a) (Fin b) = Fin (a * / b).
Proof.
  intros Hb. unfold f_div, f_inv. destruct (Req_dec_T b 0); [contradiction|reflexivity].
Qed.

Ltac literales :=
  repeat match goal with
         | |- context [INR ?n] =>
             let z := eval vm_compute in (Z.of_nat n) in
             replace (INR n) with (IZR z) by (now rewrite INR_IZR_INZ)
         end.

Lemma linspace_Fin (lo hi : R) :
  linspace (Fin lo) (Fin hi) 11 = map Fin (interpolacion lo hi).
Proof.
  unfold linspace, arange, interpolacion.
  change (0 <? 11 - 1)%nat with true. change (1 <? 11)%nat with true.
  change (11 - 1)%nat with 10%nat. cbv beta iota zeta.
  assert (H10 : INR 10 <> 0) by (apply not_0_INR; lia).
  unfold f_sub; simpl f_opp; simpl f_add.
  rewrite f_div_Fin by assumption.
  destruct (f_eqb (Fin ((hi + - lo) * / INR 10)) (Fin 0)) eqn:Hstep.
  - cbn [map seq]. rewrite !f_div_Fin by assumption.
    cbn [f_mul f_add list_insert insert]. literales.
    repeat (f_equal; try lra).
  - cbn [map seq]. cbn [f_mul f_add list_insert insert]. literales.
    repeat (f_equal; try lra).
Qed.

Lemma interpolacion_lookup (lo hi : R) (i : nat) (t : R) :
  interpolacion lo hi !! i = Some t ->
  (i <= 10)%nat /\ t = lo + INR i * (hi - lo) / 10.
Proof.
  unfold interpolacion.
  change (map ?f ?l) with (f <$> l). rewrite list_lookup_fmap.
  destruct (seq 0 11 !! i) as [k|] eqn:Hk; simpl; [|discriminate].
  apply lookup_seq in Hk as [-> Hlt]. intros [= <-]. split; [lia|reflexivity].
Qed.

Lemma lookup_map_Fin (ts : list R) (i : nat) (x : float64) :
  map Fin ts !! i = Some x -> exists t, x = Fin t /\ ts !! i = Some t.
Proof.
  change (map Fin ts) with (Fin <$> ts). rewrite list_lookup_fmap.
  destruct (ts !! i) as [t|]; simpl; [|discriminate].
  intros [= <-]. now exists t.
Qed.

(** ** The ["log"] column of the two production maps

    In both maps the column from which the scale is built holds, row by row,
    [np.log10] of the volume of the row. *)

Lemma insertar_desc_Forall {V : Type} (P : string * V -> Prop) (col : V -> R)
    (fila : string * V) (df : frame V) :
  P fila -> Forall P df -> Forall P (insertar_desc col fila df).
Proof.
  intros Hfila. induction 1 as [|otra df Hotra Hdf IH]; simpl.
  - now repeat constructor.
  - destruct (Rlt_dec (col fila.2) (col otra.2)); repeat constructor; assumption.
Qed.

Lemma sort_values_desc_Forall {V : Type} (P : string * V -> Prop) (col : V -> R)
    (df : frame V) :
  Forall P df -> Forall P (sort_values_desc col df).
Proof.
  induction 1 as [|fila df Hfila Hdf IH]; simpl; [constructor|].
  now apply insertar_desc_Forall.
Qed.

Lemma log_estatal (csv : list fila_siap) (año : Z) :
  Forall (fun fila => log fila.2 = np_log10 (Volumenproduccion (medida fila.2)))
         (df_estatal csv año).
Proof.
  unfold df_estatal, index_map. apply sort_values_desc_Forall.
  rewrite !map_map. apply List.Forall_forall. intros fila Hin.
  apply in_map_iff in Hin as (fila0 & <- & _). reflexivity.
Qed.

Lemma columna_log_estatal (csv : list fila_siap) (año : Z) :
  columna log (df_estatal csv año)
  = map np_log10
      (columna (fun fila => Volumenproduccion (medida fila)) (df_estatal csv año)).
Proof.
  unfold columna. rewrite map_map. apply map_ext_in. intros fila Hin.
  pose proof (log_estatal csv año) as Hall.
  rewrite List.Forall_forall in Hall. now apply Hall.
Qed.

Lemma columna_log_municipal (csv : list fila_siap) (año : Z) :
  columna log (df_municipal csv año)
  = map np_log10 (columna Volumenproduccion (df_con_produccion csv año)).
Proof.
  unfold df_municipal, columna. rewrite !map_map. reflexivity.
Qed.

(** ** The scale of a strictly positive column *)

Lemma MinRlist_le_MaxRlist (values : list R) :
  values <> [] -> MinRlist values <= MaxRlist values.
Proof.
  intros Hne. apply MinRlist_P1, MaxRlist_In, Hne.
Qed.

Lemma crear_escala_positiva {P : Plataforma} (values : list R) :
  values <> [] -> Forall (fun v => 0 < v) values ->
  let e := crear_escala (map np_log10 values) in
  let lo := log10 (MinRlist values) in
  let hi := log10 (MaxRlist values) in
  min_val e = Fin lo /\ max_val e = Fin hi
  /\ marcas e = map Fin (interpolacion lo hi)
  /\ lo <= hi.
Proof.
  intros Hne Hpos e lo hi. subst e. unfold crear_escala. cbn [min_val max_val marcas].
  rewrite series_min_log10, series_max_log10 by assumption.
  repeat split; [apply linspace_Fin|].
  apply log10_le; [|now apply MinRlist_le_MaxRlist].
  rewrite List.Forall_forall in Hpos. apply Hpos, MinRlist_In, Hne.
Qed.

Lemma interpolacion_no_decreciente (lo hi : R) :
  lo <= hi -> no_decreciente (map Fin (interpolacion lo hi)).
Proof.
  intros Hle i j x y Hx Hy Hij.
  apply lookup_map_Fin in Hx as (a & -> & Ha), Hy as (b & -> & Hb).
  apply interpolacion_lookup in Ha as [_ ->], Hb as [_ ->]. simpl.
  apply le_INR in Hij. nra.
Qed.

Lemma interpolacion_creciente (lo hi : R) :
  lo < hi -> creciente (map Fin (interpolacion lo hi)).
Proof.
  intros Hlt i j x y Hx Hy Hij.
  apply lookup_map_Fin in Hx as (a & -> & Ha), Hy as (b & -> & Hb).
  apply interpolacion_lookup in Ha as [_ ->], Hb as [_ ->]. simpl.
  apply lt_INR in Hij. nra.
Qed.

Lemma interpolacion_acotada (lo hi : R) :
  lo <= hi ->
  Forall (fun t => f_le (Fin lo) t /\ f_le t (Fin hi)) (map Fin (interpolacion lo hi)).
Proof.
  intros Hle. apply List.Forall_forall. intros x Hx.
  apply list_elem_of_In, list_elem_of_lookup in Hx as [i Hx].
  apply lookup_map_Fin in Hx as (a & -> & Ha).
  apply interpolacion_lookup in Ha as [Hi ->]. simpl.
  apply le_INR in Hi. pose proof (pos_INR i).
  replace (INR 10) with 10 in Hi by (now rewrite INR_IZR_INZ).
  split; nra.
Qed.

Lemma interpolacion_constante (lo : R) :
  Forall (eq (Fin lo)) (map Fin (interpolacion lo lo)).
Proof.
  apply List.Forall_forall. intros x Hx.
  apply list_elem_of_In, list_elem_of_lookup in Hx as [i Hx].
  apply lookup_map_Fin in Hx as (a & -> & Ha).
  apply interpolacion_lookup in Ha as [_ ->]. f_equal. lra.
Qed.

(** C2. For a non-empty column of strictly positive values the scale has
    the base-10 logarithms of the least and of the greatest value as its
    domain, and exactly 11 ticks, tick [i] lying at
    [domain_min + i * (domain_max - domain_min) / 10], so that the first is
    [domain_min] and the last is [domain_max]; the ticks are non-decreasing
    and all lie within the domain. *)
Theorem escala_logaritmica {P : Plataforma} (values : list R) :
  values <> [] -> Forall (fun v => 0 < v) values ->
  let e := crear_escala (map np_log10 values) in
  let lo := log10 (MinRlist values) in
  let hi := log10 (MaxRlist values) in
  min_val e = Fin lo /\ max_val e = Fin hi
  /\ length (marcas e) = 11%nat
  /\ (forall i, (i <= 10)%nat ->
        marcas e !! i = Some (Fin (lo + INR i * (hi - lo) / 10)))
  /\ marcas e !! 0%nat = Some (min_val e)
  /\ marcas e !! 10%nat = Some (max_val e)
  /\ no_decreciente (marcas e)
  /\ acotada e.
Proof.
  intros Hne Hpos e lo hi.
  destruct (crear_escala_positiva values Hne Hpos) as (Hmin & Hmax & Hm & Hle).
  fold e lo hi in Hmin, Hmax, Hm, Hle.
  assert (Hi : forall i, (i <= 10)%nat ->
             marcas e !! i = Some (Fin (lo + INR i * (hi - lo) / 10))).
  { intros i Hi. rewrite Hm. unfold interpolacion.
    change (map Fin (map ?f ?l)) with (Fin <$> (f <$> l)).
    rewrite !list_lookup_fmap.
    replace (seq 0 11 !! i) with (Some i); [reflexivity|].
    symmetry. apply lookup_seq. split; [reflexivity|lia]. }
  split; [exact Hmin|]. split; [exact Hmax|].
  split; [rewrite Hm; reflexivity|].
  split; [exact Hi|].
  split; [rewrite (Hi 0%nat), Hmin by lia; do 2 f_equal; simpl; lra|].
  split; [rewrite (Hi 10%nat), Hmax by lia; do 2 f_equal; literales; lra|].
  split; [rewrite Hm; now apply interpolacion_no_decreciente|].
  unfold acotada. rewrite Hmin, Hmax, Hm. now apply interpolacion_acotada.
Qed.

Lemma escala_logaritmica_witness :
  let e := crear_escala (P := plataforma_ideal) (map np_log10 [5; 12; 3]) in
  min_val e = Fin (log10 (MinRlist [5; 12; 3]))
  /\ length (marcas e) = 11%nat
  /\ no_decreciente (marcas e).
Proof.
  assert (Hne : [5; 12; 3] <> @nil R) by discriminate.
  assert (Hpos : Forall (fun v => 0 < v) [5; 12; 3])
    by (repeat constructor; lra).
  pose proof (escala_logaritmica (P := plataforma_ideal) [5; 12; 3] Hne Hpos) as H.
  cbv zeta in H. cbv zeta. tauto.
Defined.

(** C7, as the code has it.  Every scale built from a non-empty, strictly
    positive column keeps its ticks within the domain and in non-decreasing
    order.  The order need not be strict: when all values are the same, the
    11 ticks all equal [domain_min = domain_max], and the sequence of ticks
    is not strictly increasing. *)
Theorem invariante_de_la_escala {P : Plataforma} (values : list R) :
  values <> [] -> Forall (fun v => 0 < v) values ->
  let e := crear_escala (map np_log10 values) in
  acotada e
  /\ no_decreciente (marcas e)
  /\ ((forall v v', In v values -> In v' values -> v = v') ->
      min_val e = max_val e
      /\ Forall (eq (min_val e)) (marcas e)
      /\ ~ creciente (marcas e)).
Proof.
  intros Hne Hpos e.
  destruct (crear_escala_positiva values Hne Hpos) as (Hmin & Hmax & Hm & Hle).
  fold e in Hmin, Hmax, Hm.
  split; [unfold acotada; rewrite Hmin, Hmax, Hm; now apply interpolacion_acotada|].
  split; [rewrite Hm; now apply interpolacion_no_decreciente|].
  intros Heq.
  assert (MinRlist values = MaxRlist values) as Hmm
    by (apply Heq; [now apply MinRlist_In|now apply MaxRlist_In]).
  rewrite Hmin, Hmax, Hm, Hmm.
  split; [reflexivity|]. split; [apply interpolacion_constante|].
  intros Hcr. specialize (Hcr 0%nat 1%nat _ _ eq_refl eq_refl ltac:(lia)).
  simpl in Hcr. lra.
Qed.

Lemma invariante_de_la_escala_witness :
  acotada (crear_escala (P := plataforma_ideal) (map np_log10 [5; 12; 3]))
  /\ no_decreciente
       (marcas (crear_escala (P := plataforma_ideal) (map np_log10 [5; 12; 3]))).
Proof.
  assert (Hne : [5; 12; 3] <> @nil R) by discriminate.
  assert (Hpos : Forall (fun v => 0 < v) [5; 12; 3])
    by (repeat constructor; lra).
  destruct (invariante_de_la_escala (P := plataforma_ideal) [5; 12; 3] Hne Hpos)
    as (Hac & Hnd & _).
  split; [exact Hac|exact Hnd].
Defined.

(** The invariant of the data model fails on a column of identical values:
    the second tick is not above the first. *)
Lemma invariante_de_la_escala_counterexample :
  [5; 5] <> @nil R
  /\ Forall (fun v => 0 < v) [5; 5]
  /\ ~ invariante_escala (crear_escala (P := plataforma_ideal) (map np_log10 [5; 5])).
Proof.
  assert (Hne : [5; 5] <> @nil R) by discriminate.
  assert (Hpos : Forall (fun v => 0 < v) [5; 5]) by (repeat constructor; lra).
  split; [exact Hne|]. split; [exact Hpos|].
  intros [_ Hcr].
  destruct (crear_escala_positiva (P := plataforma_ideal) [5; 5] Hne Hpos)
    as (_ & _ & Hm & _).
  rewrite Hm in Hcr.
  specialize (Hcr 0%nat 1%nat _ _ eq_refl eq_refl ltac:(lia)).
  simpl in Hcr. unfold Rmin, Rmax in Hcr.
  destruct (Rle_dec 5 5); lra.
Qed.

(** ** Rounding and the text of a number *)

Lemma redondeo_par_spec (x : R) : es_redondeo x (redondeo_par x).
Proof.
  unfold es_redondeo, redondeo_par.
  pose proof (Zfloor_bound x) as [Hlo Hhi].
  destruct (Rlt_dec (x - IZR (Zfloor x)) (1 / 2)) as [H1|H1].
  - rewrite Rabs_pos_eq; lra.
  - destruct (Rlt_dec (1 / 2) (x - IZR (Zfloor x))) as [H2|H2].
    + rewrite plus_IZR, Rabs_left1; lra.
    + destruct (Z.even (Zfloor x)).
      * rewrite Rabs_pos_eq; lra.
      * rewrite plus_IZR, Rabs_left1; lra.
Qed.






Lemma append_asociativa (s1 s2 s3 : string) :
  ((s1 ++ s2) ++ s3)%string = (s1 ++ s2 ++ s3)%string.
Proof.
  induction s1 as [|c s1 IH]; [reflexivity|].
  change (String c ((s1 ++ s2) ++ s3)%string = String c (s1 ++ s2 ++ s3)%string).
  now rewrite IH.
Qed.




Lemma Rpower_10_pos (t : R) : 0 < Rpower 10 t.
Proof. unfold Rpower. apply exp_pos. Qed.

(** ** Rounding to a double *)



Lemma powerRZ_2_pos (z : Z) : 0 < powerRZ 2 z.
Proof. apply powerRZ_lt. lra. Qed.




Lemma powerRZ_2_add (a b : Z) : powerRZ 2 (a + b) = powerRZ 2 a * powerRZ 2 b.
Proof. apply powerRZ_add. lra. Qed.






(** The rounding is within half a unit of the last place. *)
Lemma redondear_error (x q : R) :
  redondear x = Fin q -> Rabs (x - q) <= powerRZ 2 (exponente x) / 2.
Proof.
  unfold redondear. pose proof (powerRZ_2_pos (exponente x)) as Hpe.
  destruct (Req_dec_T x 0) as [->|Hx].
  - intros [= <-]. rewrite Rminus_0_r, Rabs_R0. lra.
  - cbv zeta. set (ex := exponente x) in *.
    destruct (Rle_dec _ _); [destruct (Rlt_dec 0 x); discriminate|].
    intros [= <-].
    assert (Hinv : powerRZ 2 (- ex) * powerRZ 2 ex = 1).
    { rewrite <- powerRZ_2_add. replace (- ex + ex)%Z with 0%Z by lia. reflexivity. }
    pose proof (redondeo_par_spec (x * powerRZ 2 (- ex))) as Hred.
    unfold es_redondeo in Hred.
    set (k := IZR (redondeo_par (x * powerRZ 2 (- ex)))) in *.
    replace (x - k * powerRZ 2 ex)
      with ((x * powerRZ 2 (- ex) - k) * powerRZ 2 ex)
      by (rewrite Rmult_minus_distr_r, Rmult_assoc, Hinv; ring).
    rewrite Rabs_mult, (Rabs_pos_eq (powerRZ 2 ex)) by lra. nra.
Qed.







(** ** The joined layer *)

(** C1. Whatever the catalog and the aggregated frame, the join loop ends
    without raising; [ubicaciones] lists the identifiers of the features in
    catalog order and [valores] has one entry per feature, at the same
    position: the cell found under the identifier, or [None] when the
    identifier is not a label of the frame (in a frame with one row per
    label, the ["log"] cell of that row). *)
Theorem union_geografica {F : Type} (propiedad : F -> string)
    (df : frame fila_log) (features : list F) :
  exists valores,
    unir propiedad df features [] [] = Ok (map propiedad features, valores)
    /\ length valores = length features
    /\ forall (i : nat) (item : F),
         features !! i = Some item ->
         valores !! i = Some (valor_unido df (propiedad item))
         /\ (In (propiedad item) (index df) ->
             exists c, loc df (propiedad item) log = Ok c
                       /\ valores !! i = Some (Some c))
         /\ (~ In (propiedad item) (index df) -> valores !! i = Some None)
         /\ (forall fila, List.NoDup (index df) ->
               In (propiedad item, fila) df ->
               valores !! i = Some (Some (Escalar (log fila)))).
Proof.
  exists (map (fun item => valor_unido df (propiedad item)) features).
  split; [rewrite unir_map; reflexivity|]. split; [apply length_map|].
  intros i item Hi.
  assert (Hv : map (fun item => valor_unido df (propiedad item)) features !! i
               = Some (valor_unido df (propiedad item))).
  { change (map ?f ?l) with (f <$> l). now rewrite list_lookup_fmap, Hi. }
  split; [exact Hv|]. rewrite Hv. split; [|split].
  - intros Hin. destruct (loc_presente df _ log Hin) as [c Hc].
    exists c. split; [exact Hc|]. unfold valor_unido. now rewrite Hc.
  - intros Hno. now rewrite valor_unido_ausente.
  - intros fila Hnd Hin. unfold valor_unido.
    now rewrite (loc_unico df _ fila log Hnd Hin).
Qed.

Lemma union_geografica_witness :
  let fila x := {| medida := {| Volumenproduccion := 10 ^ x; Valorproduccion := 1 |};
                   log := Fin (INR x) |} in
  unir NOMGEO [("A", fila 2%nat); ("C", fila 3%nat)]
       [{| NOMGEO := "A" |}; {| NOMGEO := "B" |}; {| NOMGEO := "C" |}] [] []
  = Ok (["A"; "B"; "C"],
        [Some (Escalar (Fin (INR 2))); None; Some (Escalar (Fin (INR 3)))]).
Proof.
  intros fila.
  destruct (union_geografica NOMGEO [("A", fila 2%nat); ("C", fila 3%nat)]
              [{| NOMGEO := "A" |}; {| NOMGEO := "B" |}; {| NOMGEO := "C" |}])
    as (valores & Hu & Hlen & Hi).
  rewrite Hu. cbn [map NOMGEO]. do 2 f_equal.
  destruct valores as [|a [|b [|c [|d valores]]]]; try discriminate Hlen.
  destruct (Hi 0%nat _ eq_refl) as [[= ->] _].
  destruct (Hi 1%nat _ eq_refl) as [[= ->] _].
  destruct (Hi 2%nat _ eq_refl) as [[= ->] _].
  reflexivity.
Defined.

Lemma capa_Ok {P : Plataforma} {F : Type} (propiedad : F -> string) (df : frame fila_log)
    (features : list F) :
  capa propiedad df features
  = Ok {| locations := map propiedad features;
          z := map (fun item => valor_unido df (propiedad item)) features;
          zmin := min_val (crear_escala (columna log df));
          zmax := max_val (crear_escala (columna log df));
          tickvals := marcas (crear_escala (columna log df));
          ticktext := etiquetas (crear_escala (columna log df)) |}.
Proof. unfold capa. rewrite unir_map. reflexivity. Qed.

(** C5, as the code has it.  Building the layer never fails, whatever the
    join finds: when no identifier of the catalog is a label of the frame,
    the layer is built all the same, with a null for every feature, and
    its domain is the minimum and maximum of the frame's ["log"] column,
    not of the joined values. *)
Theorem capa_sin_coincidencias {P : Plataforma} {F : Type} (propiedad : F -> string)
    (df : frame fila_log) (features : list F) :
  (forall item, In item features -> ~ In (propiedad item) (index df)) ->
  exists c, capa propiedad df features = Ok c
            /\ locations c = map propiedad features
            /\ z c = map (fun _ => None) features
            /\ zmin c = series_min (columna log df)
            /\ zmax c = series_max (columna log df).
Proof.
  intros Hno. rewrite capa_Ok. eexists. split; [reflexivity|]. cbn.
  repeat split.
  apply map_ext_in. intros item Hin. now apply valor_unido_ausente, Hno.
Qed.

Lemma capa_sin_coincidencias_witness :
  exists c,
    capa (P := plataforma_ideal) NOMGEO
      [("B", {| medida := {| Volumenproduccion := 100; Valorproduccion := 1 |};
                log := Fin 2 |})]
      [{| NOMGEO := "A" |}] = Ok c
    /\ z c = [None].
Proof.
  destruct (capa_sin_coincidencias (P := plataforma_ideal) NOMGEO
              [("B", {| medida := {| Volumenproduccion := 100; Valorproduccion := 1 |};
                        log := Fin 2 |})]
              [{| NOMGEO := "A" |}]) as (c & Hc & _ & Hz & _).
  - intros item [<-|[]]. cbn. intros [H|[]]. discriminate H.
  - exists c. split; [exact Hc|exact Hz].
Defined.

(** A layer whose joined values are all null is built without an error. *)
Lemma capa_sin_coincidencias_counterexample :
  let df := [("B", {| medida := {| Volumenproduccion := 100; Valorproduccion := 1 |};
                      log := Fin 2 |})] in
  let features := [{| NOMGEO := "A" |}] in
  unir NOMGEO df features [] [] = Ok (["A"], [None])
  /\ ~ (exists e, capa (P := plataforma_ideal) NOMGEO df features = Raise e).
Proof.
  intros df features. split.
  - rewrite unir_map. reflexivity.
  - intros [e He]. rewrite capa_Ok in He. discriminate He.
Qed.

(** ** The composite image and the files on disk *)

Lemma entidades_png_no_0 (año : Z) : entidades_png año <> "./0.png".
Proof.
  intros H. apply (f_equal (String.get 2)) in H. cbv in H. discriminate H.
Qed.

Lemma entidades_png_no_1 (año : Z) : entidades_png año <> "./1.png".
Proof.
  intros H. apply (f_equal (String.get 2)) in H. cbv in H. discriminate H.
Qed.

(** A production table without rows: the run ends at line 42, before any
    disk call. *)
Lemma plot_mapa_estatal_sin_filas {P : Plataforma} (falla : operacion -> bool)
    (geojson : list entidad) (año : Z) (d : disco) :
  plot_mapa_estatal falla [] geojson año d = (Raise (KeyError "Valorproduccion"), d).
Proof. reflexivity. Qed.

(** The run of [plot_mapa_estatal] on a table with rows, call by call: the
    first disk call that fails ends it, with the disk as the calls before
    it left it. *)
Lemma plot_mapa_estatal_pasos {P : Plataforma} (falla : operacion -> bool)
    (csv : list fila_siap) (geojson : list entidad) (año : Z) (d : disco) :
  csv <> [] ->
  let d1 := <["./0.png" := figura 1280 720]> d in
  let d2 := <["./1.png" := figura 1280 560]> d1 in
  let result := unir_imagenes (figura 1280 720) (figura 1280 560) in
  let d3 := <[entidades_png año := result]> d2 in
  let d4 := delete "./0.png" d3 in
  plot_mapa_estatal falla csv geojson año d
  = if falla (WriteImage "./0.png") then (Raise (OSError (WriteImage "./0.png")), d)
    else if falla (WriteImage "./1.png") then (Raise (OSError (WriteImage "./1.png")), d1)
    else if falla (ImageOpen "./0.png") then (Raise (OSError (ImageOpen "./0.png")), d2)
    else if falla (ImageOpen "./1.png") then (Raise (OSError (ImageOpen "./1.png")), d2)
    else if falla (ImageSave (entidades_png año))
         then (Raise (OSError (ImageSave (entidades_png año))), d2)
    else if falla (OsRemove "./0.png") then (Raise (OSError (OsRemove "./0.png")), d3)
    else if falla (OsRemove "./1.png") then (Raise (OSError (OsRemove "./1.png")), d4)
    else (Ok tt, delete "./1.png" d4).
Proof.
  intros Hcsv d1 d2 result d3 d4.
  pose proof (entidades_png_no_0 año) as Hp0.
  pose proof (entidades_png_no_1 año) as Hp1.
  unfold plot_mapa_estatal. rewrite capa_Ok.
  destruct csv as [|fila0 csv]; [contradiction|]. cbn [columna_numerica].
  unfold mbind, IO_bind, elevar, write_image, Image_open, Image_save, os_remove.
  destruct (falla (WriteImage "./0.png")); [reflexivity|]. fold d1.
  destruct (falla (WriteImage "./1.png")); [reflexivity|]. fold d2.
  destruct (falla (ImageOpen "./0.png")); [reflexivity|].
  assert (H0 : d2 !! "./0.png" = Some (figura 1280 720)).
  { subst d2 d1. rewrite lookup_insert_ne by discriminate. apply lookup_insert_eq. }
  assert (H1 : d2 !! "./1.png" = Some (figura 1280 560)).
  { subst d2. apply lookup_insert_eq. }
  rewrite H0.
  destruct (falla (ImageOpen "./1.png")); [reflexivity|].
  rewrite H1. fold result.
  destruct (falla (ImageSave (entidades_png año))); [reflexivity|]. fold d3.
  destruct (falla (OsRemove "./0.png")); [reflexivity|].
  assert (H0' : d3 !! "./0.png" = Some (figura 1280 720)).
  { subst d3. now rewrite lookup_insert_ne. }
  rewrite H0'. fold d4.
  destruct (falla (OsRemove "./1.png")); [reflexivity|].
  assert (H1' : d4 !! "./1.png" = Some (figura 1280 560)).
  { subst d4 d3. rewrite lookup_delete_ne by discriminate. now rewrite lookup_insert_ne. }
  now rewrite H1'.
Qed.

(** A run that does not stop at line 42 read a table with rows. *)
Lemma plot_mapa_estatal_con_filas {P : Plataforma} (falla : operacion -> bool)
    (csv : list fila_siap) (geojson : list entidad) (año : Z)
    (d d' : disco) (r : resultado unit) :
  plot_mapa_estatal falla csv geojson año d = (r, d') ->
  (csv = [] /\ r = Raise (KeyError "Valorproduccion") /\ d' = d)
  \/ (csv <> [] /\ r <> Raise (KeyError "Valorproduccion")).
Proof.
  intros Hrun. destruct csv as [|fila0 csv].
  - left. rewrite plot_mapa_estatal_sin_filas in Hrun. injection Hrun as <- <-.
    now repeat split.
  - right. split; [discriminate|].
    rewrite plot_mapa_estatal_pasos in Hrun by discriminate.
    repeat match type of Hrun with
           | (if ?c then _ else _) = _ => destruct c
           end;
      injection Hrun as <- <-; discriminate.
Qed.

(** C4.  The two images that [plot_mapa_estatal] stacks are its own two
    renders, 1280 x 720 and 1280 x 560, both as wide as the 1280 of the
    composite.  So the composite that every run without an error has saved
    is as wide as the wider of the two and as high as the two together,
    with the first image pasted at (0, 0) and the second at (0, height of
    the first): 1280 x 1280.  The same holds of any two images the wider
    of which is 1280 wide. *)
Theorem imagen_compuesta {P : Plataforma} (falla : operacion -> bool)
    (csv : list fila_siap) (geojson : list entidad) (año : Z) (d d' : disco) :
  plot_mapa_estatal falla csv geojson año d = (Ok tt, d') ->
  let image1 := figura 1280 720 in
  let image2 := figura 1280 560 in
  (exists result,
     d' !! entidades_png año = Some result
     /\ result = unir_imagenes image1 image2
     /\ width result = Z.max (width image1) (width image2)
     /\ height result = (height image1 + height image2)%Z
     /\ pegados result
        = [(size image1, (0, 0)%Z); (size image2, (0, height image1)%Z)]
     /\ apilado_vertical image1 image2 result
     /\ size result = (1280, 1280)%Z)
  /\ forall im1 im2 : Imagen,
       Z.max (width im1) (width im2) = 1280%Z ->
       apilado_vertical im1 im2 (unir_imagenes im1 im2).
Proof.
  intros Hrun image1 image2. split.
  - exists (unir_imagenes image1 image2).
    split; [|repeat split].
    destruct (plot_mapa_estatal_con_filas _ _ _ _ _ _ _ Hrun)
      as [(_ & Hr & _)|[Hcsv _]]; [discriminate Hr|].
    rewrite plot_mapa_estatal_pasos in Hrun by assumption.
    repeat match type of Hrun with
           | (if ?c then _ else _) = _ => destruct c; [discriminate Hrun|]
           end.
    injection Hrun as <-.
    pose proof (entidades_png_no_0 año). pose proof (entidades_png_no_1 año).
    rewrite !lookup_delete_ne by congruence. apply lookup_insert_eq.
  - intros im1 im2 Hw. unfold apilado_vertical, unir_imagenes. cbn.
    repeat split. lia.
Qed.

Lemma imagen_compuesta_witness :
  let csv := [{| Anio := 2023; Nomestado := Some "Jalisco"; Idestado := 14;
                 Idmunicipio := 1;
                 produccion := {| Volumenproduccion := 100;
                                  Valorproduccion := 5000 |} |}] in
  exists (d' : disco) (result : Imagen),
    plot_mapa_estatal (P := plataforma_ideal) (fun _ => false) csv
      [{| NOMGEO := "Jalisco" |}] 2023 ∅
    = (Ok tt, d')
    /\ d' !! "./entidades_2023.png" = Some result
    /\ size result = (1280, 1280)%Z.
Proof.
  intros csv.
  pose proof (plot_mapa_estatal_pasos (P := plataforma_ideal) (fun _ => false)
                csv [{| NOMGEO := "Jalisco" |}] 2023 ∅ ltac:(discriminate)) as Hrun.
  cbv beta iota zeta in Hrun.
  destruct (imagen_compuesta _ _ _ _ _ _ Hrun)
    as [(result & Hd & _ & _ & _ & _ & _ & Hsize) _].
  eexists. exists result. split; [exact Hrun|]. split; [exact Hd|exact Hsize].
Defined.

(** C6, as the code has it.  A run of [plot_mapa_estatal] that ends without
    an error leaves neither [./0.png] nor [./1.png] behind.  A run ended by
    an error leaves the disk as it was at the failing call: unchanged when
    that is the lookup of line 42 or the first write; otherwise with
    [./0.png] still there, except when the call is the removal of
    [./1.png], and then [./1.png] is still there. *)
Theorem archivos_intermedios {P : Plataforma} (falla : operacion -> bool)
    (csv : list fila_siap) (geojson : list entidad) (año : Z)
    (d d' : disco) (r : resultado unit) :
  plot_mapa_estatal falla csv geojson año d = (r, d') ->
  match r with
  | Ok _ => d' !! "./0.png" = None /\ d' !! "./1.png" = None
  | Raise e =>
      ((e = KeyError "Valorproduccion" \/ e = OSError (WriteImage "./0.png"))
       /\ d' = d)
      \/ (e <> KeyError "Valorproduccion"
          /\ e <> OSError (WriteImage "./0.png")
          /\ e <> OSError (OsRemove "./1.png")
          /\ d' !! "./0.png" = Some (figura 1280 720))
      \/ (e = OSError (OsRemove "./1.png")
          /\ d' !! "./0.png" = None
          /\ d' !! "./1.png" = Some (figura 1280 560))
  end.
Proof.
  intros Hrun.
  destruct (plot_mapa_estatal_con_filas _ _ _ _ _ _ _ Hrun)
    as [(_ & -> & ->)|[Hcsv _]]; [left; split; [now left|reflexivity]|].
  rewrite plot_mapa_estatal_pasos in Hrun by assumption.
  pose proof (entidades_png_no_0 año) as Hp0.
  pose proof (entidades_png_no_1 año) as Hp1.
  repeat match type of Hrun with
         | (if ?c then _ else _) = _ => destruct c
         end;
    injection Hrun as <- <-.
  - left. split; [now right|reflexivity].
  - right; left. repeat split; try discriminate. apply lookup_insert_eq.
  - right; left. repeat split; try discriminate.
    rewrite lookup_insert_ne by discriminate. apply lookup_insert_eq.
  - right; left. repeat split; try discriminate.
    rewrite lookup_insert_ne by discriminate. apply lookup_insert_eq.
  - right; left. repeat split; try discriminate.
    rewrite lookup_insert_ne by discriminate. apply lookup_insert_eq.
  - right; left. repeat split; try discriminate.
    rewrite lookup_insert_ne by assumption.
    rewrite lookup_insert_ne by discriminate. apply lookup_insert_eq.
  - right; right. repeat split.
    + apply lookup_delete_eq.
    + rewrite lookup_delete_ne by discriminate.
      rewrite lookup_insert_ne by assumption. apply lookup_insert_eq.
  - split.
    + rewrite lookup_delete_ne by discriminate. apply lookup_delete_eq.
    + apply lookup_delete_eq.
Qed.

Lemma archivos_intermedios_witness :
  let csv := [{| Anio := 2023; Nomestado := Some "Jalisco"; Idestado := 14;
                 Idmunicipio := 1;
                 produccion := {| Volumenproduccion := 100;
                                  Valorproduccion := 5000 |} |}] in
  exists d' : disco,
    plot_mapa_estatal (P := plataforma_ideal) (fun _ => false) csv
      [{| NOMGEO := "Jalisco" |}] 2023 ∅
    = (Ok tt, d')
    /\ d' !! "./0.png" = None /\ d' !! "./1.png" = None.
Proof.
  intros csv.
  pose proof (plot_mapa_estatal_pasos (P := plataforma_ideal) (fun _ => false)
                csv [{| NOMGEO := "Jalisco" |}] 2023 ∅ ltac:(discriminate)) as Hrun.
  cbv beta iota zeta in Hrun.
  eexists. split; [exact Hrun|].
  exact (archivos_intermedios _ _ _ _ _ _ _ Hrun).
Defined.

(** When saving the composite fails, both intermediate files stay on disk. *)
Lemma archivos_intermedios_counterexample :
  let csv := [{| Anio := 2023; Nomestado := Some "Jalisco"; Idestado := 14;
                 Idmunicipio := 1;
                 produccion := {| Volumenproduccion := 100;
                                  Valorproduccion := 5000 |} |}] in
  let falla op := match op with ImageSave _ => true | _ => false end in
  exists d' : disco,
    plot_mapa_estatal (P := plataforma_ideal) falla csv
      [{| NOMGEO := "Jalisco" |}] 2023 ∅
    = (Raise (OSError (ImageSave "./entidades_2023.png")), d')
    /\ d' !! "./0.png" = Some (figura 1280 720)
    /\ d' !! "./1.png" = Some (figura 1280 560).
Proof.
  intros csv falla. eexists. split.
  - rewrite plot_mapa_estatal_pasos by discriminate. reflexivity.
  - split; reflexivity.
Qed.

(** ** [groupby] *)

Lemma compare_Eq (k k' : string) : String_as_OT.compare k k' = Eq -> k = k'.
Proof. intros H. destruct (String_as_OT.compare_spec k k'); congruence. Qed.

Lemma lt_irrefl (k : string) : ~ String_as_OT.lt k k.
Proof. apply (StrictOrder_Irreflexive (R := String_as_OT.lt)). Qed.

Lemma lt_trans (a b c : string) :
  String_as_OT.lt a b -> String_as_OT.lt b c -> String_as_OT.lt a c.
Proof. apply (StrictOrder_Transitive (R := String_as_OT.lt)). Qed.

Lemma compare_Gt (k k' : string) :
  String_as_OT.lt k' k -> String_as_OT.compare k k' = Gt.
Proof.
  intros Hlt. destruct (String_as_OT.compare_spec k k') as [Heq|Hlt'|Hgt].
  - hnf in Heq. subst. now apply lt_irrefl in Hlt.
  - exfalso. apply (lt_irrefl k). now apply lt_trans with k'.
  - reflexivity.
Qed.

Lemma ordenado_cons (k : string) (claves : list string) :
  ordenado (k :: claves) <-> ordenado claves /\ Forall (String_as_OT.lt k) claves.
Proof.
  split; [apply StronglySorted_inv|]. intros [H1 H2]. now constructor.
Qed.

Lemma ordenado_NoDup (claves : list string) : ordenado claves -> List.NoDup claves.
Proof.
  induction claves as [|k claves IH]; intros Hs; [constructor|].
  apply ordenado_cons in Hs as [Hs Hall]. constructor; [|now apply IH].
  intros Hin. rewrite List.Forall_forall in Hall. now apply Hall, lt_irrefl in Hin.
Qed.

Section Groupby.
Context {V : Type} (f : V -> V -> V).

Lemma upsert_index (k : string) (v : V) (df : frame V) (k' : string) :
  In k' (index (upsert f k v df)) <-> k' = k \/ In k' (index df).
Proof.
  induction df as [|[k0 v0] df IH]; simpl; [intuition congruence|].
  destruct (String_as_OT.compare k k0) eqn:Hc; simpl.
  - apply compare_Eq in Hc as ->. intuition congruence.
  - intuition congruence.
  - rewrite IH. intuition congruence.
Qed.

Lemma upsert_ordenado (k : string) (v : V) (df : frame V) :
  ordenado (index df) -> ordenado (index (upsert f k v df)).
Proof.
  induction df as [|[k0 v0] df IH]; simpl; intros Hs.
  - repeat constructor.
  - pose proof Hs as Hs'. apply ordenado_cons in Hs' as [Hs' Hall].
    destruct (String_as_OT.compare_spec k k0) as [Heq|Hlt|Hgt]; simpl.
    + exact Hs.
    + apply ordenado_cons. split; [exact Hs|]. constructor; [exact Hlt|].
      eapply List.Forall_impl; [|exact Hall]. intros a Ha. now apply lt_trans with k0.
    + apply ordenado_cons. split; [now apply IH|].
      apply List.Forall_forall. intros a Ha. apply upsert_index in Ha as [->|Ha].
      * exact Hgt.
      * rewrite List.Forall_forall in Hall. now apply Hall.
Qed.

Lemma buscar_None (k : string) (df : frame V) :
  ~ In k (index df) -> buscar k df = None.
Proof.
  induction df as [|[k0 v0] df IH]; simpl; intros Hno; [reflexivity|].
  destruct (String.eqb_spec k k0) as [->|Hne]; [tauto|]. apply IH. tauto.
Qed.

Lemma buscar_In (k : string) (v : V) (df : frame V) :
  buscar k df = Some v -> In (k, v) df.
Proof.
  induction df as [|[k0 v0] df IH]; simpl; [discriminate|].
  destruct (String.eqb_spec k k0) as [->|Hne].
  - intros [= ->]. now left.
  - intros H. right. now apply IH.
Qed.

Lemma In_buscar (k : string) (v : V) (df : frame V) :
  List.NoDup (index df) -> In (k, v) df -> buscar k df = Some v.
Proof.
  induction df as [|[k0 v0] df IH]; simpl; intros Hnd Hin; [contradiction|].
  apply List.NoDup_cons_iff in Hnd as [Hno Hnd].
  destruct Hin as [[= -> ->]|Hin].
  - now rewrite String.eqb_refl.
  - destruct (String.eqb_spec k k0) as [->|Hne]; [|now apply IH].
    exfalso. apply Hno. change k0 with (fst (k0, v)). now apply in_map.
Qed.

Lemma buscar_upsert (k : string) (v : V) (df : frame V) (k' : string) :
  ordenado (index df) ->
  buscar k' (upsert f k v df)
  = if String.eqb k' k
    then Some (match buscar k df with Some v' => f v' v | None => v end)
    else buscar k' df.
Proof.
  induction df as [|[k0 v0] df IH]; simpl; intros Hs.
  - destruct (String.eqb k' k); reflexivity.
  - apply ordenado_cons in Hs as [Hs Hall].
    destruct (String_as_OT.compare_spec k k0) as [Heq|Hlt|Hgt]; simpl.
    + hnf in Heq. subst k0.
      destruct (String.eqb_spec k' k) as [Hk|Hne]; [|reflexivity].
      now rewrite String.eqb_refl.
    + destruct (String.eqb_spec k' k) as [Hk|Hne]; [|reflexivity].
      destruct (String.eqb_spec k k0) as [Hk0|Hne0].
      { subst k0. now apply lt_irrefl in Hlt. }
      rewrite buscar_None; [reflexivity|].
      intros Hin. rewrite List.Forall_forall in Hall. apply Hall in Hin.
      apply (lt_irrefl k). now apply lt_trans with k0.
    + rewrite IH by assumption.
      destruct (String.eqb_spec k' k0) as [Hk0|Hne0].
      * destruct (String.eqb_spec k' k) as [Hk|Hne]; [|reflexivity].
        subst k'. subst k0. now apply lt_irrefl in Hgt.
      * destruct (String.eqb_spec k' k) as [Hk|Hne]; [|reflexivity].
        destruct (String.eqb_spec k k0) as [Hkk|_]; [|reflexivity].
        subst k'. contradiction.
Qed.

Lemma fold_paso_ordenado (filas : list (option string * V)) (acc : frame V) :
  ordenado (index acc) -> ordenado (index (fold_left (paso f) filas acc)).
Proof.
  revert acc. induction filas as [|[[k|] v] filas IH]; intros acc Hs; simpl.
  - exact Hs.
  - apply IH. now apply upsert_ordenado.
  - now apply IH.
Qed.

Lemma groupby_ordenado (filas : list (option string * V)) :
  ordenado (index (groupby f filas)).
Proof. apply fold_paso_ordenado. constructor. Qed.

Lemma fold_paso_index (filas : list (option string * V)) (acc : frame V) (k : string) :
  In k (index (fold_left (paso f) filas acc))
  <-> In k (index acc) \/ exists v, In (Some k, v) filas.
Proof.
  revert acc. induction filas as [|[[k0|] v0] filas IH]; intros acc; simpl.
  - split; [tauto|]. intros [H|[v []]]. exact H.
  - rewrite IH. unfold paso. simpl. rewrite upsert_index. split.
    + intros [[->|H]|[v H]]; eauto.
    + intros [H|[v [[= <- <-]|H]]]; eauto.
  - rewrite IH. unfold paso. simpl. split.
    + intros [H|[v H]]; eauto.
    + intros [H|[v [[=]|H]]]; eauto.
Qed.

Lemma groupby_index (filas : list (option string * V)) (k : string) :
  In k (index (groupby f filas)) <-> exists v, In (Some k, v) filas.
Proof.
  unfold groupby. change (fold_left _ filas []) with (fold_left (paso f) filas []).
  rewrite fold_paso_index. simpl. tauto.
Qed.

Lemma fold_paso_buscar (filas : list (option string * V)) (acc : frame V) (k : string) :
  ordenado (index acc) ->
  buscar k (fold_left (paso f) filas acc)
  = match buscar k acc with
    | Some a => Some (fold_left f (valores_de k filas) a)
    | None => reducir f (valores_de k filas)
    end.
Proof.
  revert acc. induction filas as [|[[k0|] v0] filas IH]; intros acc Hs.
  - simpl. destruct (buscar k acc); reflexivity.
  - cbn [fold_left]. rewrite IH by now apply upsert_ordenado.
    unfold paso. cbn [fst snd]. rewrite buscar_upsert by assumption.
    unfold valores_de. cbn [List.filter fst].
    destruct (String.eqb_spec k k0) as [->|Hne].
    + cbn [map snd reducir fold_left]. destruct (buscar k0 acc); reflexivity.
    + reflexivity.
  - cbn [fold_left]. now rewrite IH.
Qed.

Lemma groupby_buscar (filas : list (option string * V)) (k : string) :
  buscar k (groupby f filas) = reducir f (valores_de k filas).
Proof.
  unfold groupby. change (fold_left _ filas []) with (fold_left (paso f) filas []).
  rewrite fold_paso_buscar by constructor. reflexivity.
Qed.

(** A property of cells that the reduction keeps holds of every group. *)
Lemma upsert_Forall (P : V -> Prop) (k : string) (v : V) (df : frame V) :
  (forall a b, P a -> P b -> P (f a b)) ->
  P v -> Forall (fun fila => P fila.2) df ->
  Forall (fun fila => P fila.2) (upsert f k v df).
Proof.
  intros Hf Hv. induction 1 as [|[k0 v0] df H0 Hdf IH]; simpl.
  - repeat constructor. exact Hv.
  - destruct (String_as_OT.compare k k0); constructor; simpl; auto.
Qed.

Lemma groupby_Forall (P : V -> Prop) (filas : list (option string * V)) :
  (forall a b, P a -> P b -> P (f a b)) ->
  Forall (fun fila => P fila.2) filas ->
  Forall (fun fila => P fila.2) (groupby f filas).
Proof.
  intros Hf Hfilas. unfold groupby.
  change (fold_left _ filas []) with (fold_left (paso f) filas []).
  assert (Hacc : Forall (fun fila : string * V => P fila.2) []) by constructor.
  revert Hacc. generalize (@nil (string * V)) as acc.
  induction Hfilas as [|[[k|] v] filas Hv _ IH]; intros acc Hacc; simpl.
  - exact Hacc.
  - apply IH. now apply upsert_Forall.
  - now apply IH.
Qed.

(** Rows that come in ascending key order are appended one after the other. *)
Lemma upsert_al_final (k : string) (v : V) (df : frame V) :
  ordenado (index (df ++ [(k, v)])) -> upsert f k v df = df ++ [(k, v)].
Proof.
  induction df as [|[k0 v0] df IH]; simpl; intros Hs; [reflexivity|].
  apply ordenado_cons in Hs as [Hs Hall].
  rewrite compare_Gt.
  - now rewrite IH.
  - rewrite List.Forall_forall in Hall. apply Hall.
    unfold index. rewrite map_app. apply in_or_app. right. now left.
Qed.

Lemma fold_upsert_ordenado (df acc : frame V) :
  ordenado (index (acc ++ df)) ->
  fold_left (paso f) (reset_index df) acc = acc ++ df.
Proof.
  revert acc. induction df as [|[k v] df IH]; intros acc Hs; simpl.
  - now rewrite app_nil_r.
  - unfold paso at 2. cbn [fst snd].
    replace (acc ++ (k, v) :: df) with ((acc ++ [(k, v)]) ++ df) in *
      by now rewrite <- app_assoc.
    rewrite upsert_al_final.
    + now apply IH.
    + unfold index in *. rewrite map_app in Hs.
      clear IH. induction (map fst (acc ++ [(k, v)])) as [|a l IHl]; simpl in *.
      * constructor.
      * apply ordenado_cons in Hs as [Hs Hall]. apply ordenado_cons.
        split; [now apply IHl|]. apply List.Forall_app in Hall. tauto.
Qed.

Lemma upsert_Permutation (k : string) (v : V) (df : frame V) :
  ~ In k (index df) -> Permutation ((k, v) :: df) (upsert f k v df).
Proof.
  induction df as [|[k0 v0] df IH]; simpl; intros Hno; [reflexivity|].
  destruct (String_as_OT.compare k k0) eqn:Hc.
  - apply compare_Eq in Hc. exfalso. apply Hno. left. congruence.
  - reflexivity.
  - rewrite perm_swap. apply perm_skip, IH. tauto.
Qed.

Lemma fold_upsert_Permutation (df acc : frame V) :
  List.NoDup (index (acc ++ df)) ->
  Permutation (acc ++ df) (fold_left (paso f) (reset_index df) acc).
Proof.
  revert acc. induction df as [|[k v] df IH]; intros acc Hnd; simpl.
  - now rewrite app_nil_r.
  - unfold paso at 2. cbn [fst snd].
    unfold index in Hnd. rewrite map_app in Hnd. simpl in Hnd.
    pose proof (List.NoDup_remove_2 _ _ _ Hnd) as Hno.
    assert (Hk : ~ In k (index acc)).
    { intros Hin. apply Hno, in_or_app. now left. }
    rewrite <- IH.
    + rewrite <- (upsert_Permutation k v acc Hk). simpl.
      now rewrite Permutation_middle.
    + apply (Permutation_NoDup (l := map fst acc ++ k :: map fst df)); [|exact Hnd].
      unfold index. rewrite map_app.
      rewrite <- (Permutation_map fst (upsert_Permutation k v acc Hk)). simpl.
      now rewrite Permutation_middle.
Qed.
End Groupby.

(** ** Re-aggregation in [sum] mode *)

(** C9.  Grouping again a frame that has one row per key, by the same key
    and in [sum] mode, gives the same dataset: the same keys, one row per
    key, and under every key the row of the input with its cells untouched,
    a group of one row being reduced to that row.  The rows come out in
    ascending key order, so the result is a permutation of the input, and
    it is the input itself, row for row, when the rows are already in
    ascending key order, as those of any grouped frame are: grouping the
    result of a grouping changes nothing. *)
Theorem reagrupar_una_fila_por_clave (df : frame medidas) :
  List.NoDup (index df) ->
  let df' := groupby sum_medidas (reset_index df) in
  Permutation df df'
  /\ ordenado (index df')
  /\ (forall k, buscar k df' = buscar k df)
  /\ (ordenado (index df) -> df' = df)
  /\ forall filas,
       groupby sum_medidas (reset_index (groupby sum_medidas filas))
       = groupby sum_medidas filas.
Proof.
  intros Hnd df'.
  assert (Hperm : Permutation df df').
  { apply (fold_upsert_Permutation sum_medidas df []). exact Hnd. }
  split; [exact Hperm|].
  split; [apply groupby_ordenado|].
  split; [|split].
  - intros k. destruct (buscar k df) as [v|] eqn:Hk.
    + apply In_buscar.
      * apply ordenado_NoDup, groupby_ordenado.
      * apply (Permutation_in _ Hperm). now apply buscar_In.
    + destruct (buscar k df') as [v|] eqn:Hk'; [|reflexivity].
      apply buscar_In in Hk'. apply (Permutation_in _ (Permutation_sym Hperm)) in Hk'.
      apply (In_buscar _ _ _ Hnd) in Hk'. congruence.
  - intros Hs. apply (fold_upsert_ordenado sum_medidas df []). exact Hs.
  - intros filas. apply (fold_upsert_ordenado sum_medidas _ []).
    apply groupby_ordenado.
Qed.

Lemma reagrupar_una_fila_por_clave_witness :
  let m x := {| Volumenproduccion := x; Valorproduccion := x |} in
  groupby sum_medidas (reset_index [("A", m 2); ("B", m 1)])
  = [("A", m 2); ("B", m 1)].
Proof.
  intros m.
  assert (Hs : ordenado (index [("A", m 2); ("B", m 1)])).
  { repeat constructor. }
  apply (reagrupar_una_fila_por_clave [("A", m 2); ("B", m 1)]);
    [apply ordenado_NoDup|]; exact Hs.
Defined.

(** ** Aggregation of the export table in [max] mode *)

Lemma fold_max_columna (col : comercio -> R) (vs : list comercio) (v : comercio) :
  (forall a b, col (max_comercio a b) = Rmax (col a) (col b)) ->
  col (fold_left max_comercio vs v) = fold_left Rmax (map col vs) (col v).
Proof.
  intros Hcol. revert v. induction vs as [|a vs IH]; intros v; simpl; [reflexivity|].
  now rewrite IH, Hcol.
Qed.

Lemma valores_de_exportaciones (filas : list fila_inegi) (k : string) :
  valores_de k
    (map (fun r => (PAIS_O_D r, cifras r))
       (map (fun r => {| ANIO := ANIO r; TIPO := TIPO r;
                         PAIS_O_D := fillna "TOTAL" (PAIS_O_D r);
                         cifras := cifras r |}) filas))
  = map cifras (List.filter (fun r => String.eqb k (clave_destino r)) filas).
Proof.
  unfold valores_de, clave_destino.
  induction filas as [|r filas IH]; [reflexivity|].
  cbn [map List.filter fst PAIS_O_D cifras].
  destruct (PAIS_O_D r) as [k'|]; cbn [fillna];
    match goal with |- context [String.eqb ?a ?b] => destruct (String.eqb a b) end;
    cbn [map snd]; now rewrite IH.
Qed.

Lemma maximo_del_grupo (col : comercio -> R) (grupo : list fila_inegi) (m : comercio) :
  (forall a b, col (max_comercio a b) = Rmax (col a) (col b)) ->
  reducir max_comercio (map cifras grupo) = Some m ->
  es_maximo (fun r => col (cifras r)) grupo (col m).
Proof.
  intros Hcol Hm. destruct grupo as [|r0 grupo]; [discriminate|].
  cbn [map reducir] in Hm. injection Hm as <-.
  rewrite fold_max_columna by assumption.
  destruct (fold_Rmax_spec (map col (map cifras grupo)) (col (cifras r0)))
    as [Hin Hle].
  rewrite map_map in Hin, Hle. split.
  - change (col (cifras r0) :: map (fun r => col (cifras r)) grupo)
      with (map (fun r => col (cifras r)) (r0 :: grupo)) in Hin.
    apply in_map_iff in Hin as (r & Hr & Hin). exists r. rewrite map_map. tauto.
  - intros r Hr. rewrite map_map. apply Hle.
    change (col (cifras r0) :: map (fun r => col (cifras r)) grupo)
      with (map (fun r => col (cifras r)) (r0 :: grupo)).
    now apply (in_map (fun r => col (cifras r))).
Qed.

(** C8. In [mapa_exportaciones] no export row of the year is dropped for
    want of a key: a row whose destination is missing is grouped under
    ["TOTAL"], any other under its destination.  The grouped frame has one
    row per key, and each of its numeric cells is the greatest value of
    that column over the rows of the key.  A key with the rows 5, 12 and 3
    gets 12. *)
Theorem exportaciones_maximo (csv : list fila_inegi) (año : Z) :
  let filas := filas_exportadas csv año in
  let df := df_exportaciones csv año in
  (forall r, In r filas -> PAIS_O_D r = None -> In "TOTAL" (index df))
  /\ (forall r, In r filas -> In (clave_destino r) (index df))
  /\ List.NoDup (index df)
  /\ (forall k m, In (k, m) df ->
        let grupo := List.filter (fun r => String.eqb k (clave_destino r)) filas in
        es_maximo (fun r => CANTIDAD (cifras r)) grupo (CANTIDAD m)
        /\ es_maximo (fun r => VAL_MNX (cifras r)) grupo (VAL_MNX m))
  /\ (let fila k x := {| ANIO := 2023; TIPO := "Exportaciones"; PAIS_O_D := k;
                         cifras := {| CANTIDAD := x; VAL_MNX := 10 * x |} |} in
      df_exportaciones
        [fila (Some "USA") 5; fila (Some "USA") 12; fila None 20; fila (Some "USA") 3]
        2023
      = [("TOTAL", {| CANTIDAD := 20; VAL_MNX := 10 * 20 |});
         ("USA", {| CANTIDAD := 12; VAL_MNX := 10 * 12 |})]).
Proof.
  intros filas df.
  assert (Hclave : forall r, In r filas -> In (clave_destino r) (index df)).
  { intros r Hr. apply groupby_index. exists (cifras r).
    unfold exportaciones. fold (filas_exportadas csv año). fold filas.
    rewrite map_map. cbn [PAIS_O_D cifras].
    apply in_map_iff. exists r. split; [|exact Hr].
    unfold clave_destino, fillna. now destruct (PAIS_O_D r). }
  assert (Hnd : List.NoDup (index df)) by (apply ordenado_NoDup, groupby_ordenado).
  split; [|split; [exact Hclave|split; [exact Hnd|split]]].
  - intros r Hr Hnone. specialize (Hclave r Hr).
    unfold clave_destino in Hclave. now rewrite Hnone in Hclave.
  - intros k m Hin grupo.
    apply (In_buscar _ _ _ Hnd) in Hin.
    unfold df, df_exportaciones in Hin. rewrite groupby_buscar in Hin.
    unfold exportaciones in Hin. fold (filas_exportadas csv año) in Hin.
    fold filas in Hin. rewrite valores_de_exportaciones in Hin. fold grupo in Hin.
    split; apply maximo_del_grupo; try exact Hin; reflexivity.
  - intros fila.
    transitivity
      [("TOTAL", cifras (fila None 20));
       ("USA", max_comercio
                 (max_comercio (cifras (fila None 5)) (cifras (fila None 12)))
                 (cifras (fila None 3)))];
      [reflexivity|].
    unfold max_comercio. cbn [fila cifras CANTIDAD VAL_MNX].
    assert (H1 : Rmax (Rmax 5 12) 3 = 12).
    { unfold Rmax. repeat (destruct (Rle_dec _ _)); lra. }
    assert (H2 : Rmax (Rmax (10 * 5) (10 * 12)) (10 * 3) = 10 * 12).
    { unfold Rmax. repeat (destruct (Rle_dec _ _)); lra. }
    now rewrite H1, H2.
Qed.

Lemma exportaciones_maximo_witness :
  let fila k x := {| ANIO := 2023; TIPO := "Exportaciones"; PAIS_O_D := k;
                     cifras := {| CANTIDAD := x; VAL_MNX := 10 * x |} |} in
  let csv := [fila (Some "USA") 5; fila (Some "USA") 12; fila None 20;
              fila (Some "USA") 3] in
  In "TOTAL" (index (df_exportaciones csv 2023))
  /\ es_maximo (fun r => CANTIDAD (cifras r))
       (List.filter (fun r => String.eqb "USA" (clave_destino r))
          (filas_exportadas csv 2023))
       12.
Proof.
  intros fila csv.
  destruct (exportaciones_maximo csv 2023) as (Htotal & _ & _ & Hmax & Hej).
  split.
  - apply (Htotal (fila None 20)); [|reflexivity].
    cbn. right. right. now left.
  - apply (Hmax "USA" {| CANTIDAD := 12; VAL_MNX := 10 * 12 |}).
    assert (Hdf : df_exportaciones csv 2023
                  = [("TOTAL", {| CANTIDAD := 20; VAL_MNX := 10 * 20 |});
                     ("USA", {| CANTIDAD := 12; VAL_MNX := 10 * 12 |})])
      by exact Hej.
    rewrite Hdf. right. now left.
Defined.

(** ** The logarithm in the municipal map *)

Lemma sum_medidas_no_negativa (a b : medidas) :
  0 <= Volumenproduccion a -> 0 <= Volumenproduccion b ->
  0 <= Volumenproduccion (sum_medidas a b).
Proof. intros Ha Hb. simpl. lra. Qed.

Lemma df_por_municipio_no_negativo (csv : list fila_siap) (año : Z) :
  (forall r, In r (filas_del_año csv año) ->
             0 <= Volumenproduccion (produccion r)) ->
  Forall (fun fila => 0 <= Volumenproduccion fila.2) (df_por_municipio csv año).
Proof.
  intros Hcsv. unfold df_por_municipio.
  apply (groupby_Forall sum_medidas (fun m => 0 <= Volumenproduccion m)).
  - apply sum_medidas_no_negativa.
  - apply List.Forall_forall. intros fila Hin.
    apply in_map_iff in Hin as (r & <- & Hr). simpl.
    apply Hcsv. exact Hr.
Qed.

Lemma df_con_produccion_In (csv : list fila_siap) (año : Z) (k : string) (m : medidas) :
  In (k, m) (df_con_produccion csv año)
  <-> In (k, m) (df_por_municipio csv año) /\ Volumenproduccion m <> 0.
Proof.
  unfold df_con_produccion. rewrite filter_In. simpl.
  destruct (Req_dec_T (Volumenproduccion m) 0); intuition discriminate.
Qed.

Lemma df_con_produccion_positivo (csv : list fila_siap) (año : Z) :
  (forall r, In r (filas_del_año csv año) ->
             0 <= Volumenproduccion (produccion r)) ->
  Forall (fun v => 0 < v) (columna Volumenproduccion (df_con_produccion csv año)).
Proof.
  intros Hcsv. apply List.Forall_forall. intros v Hv.
  apply in_map_iff in Hv as ([k m] & <- & Hin). simpl.
  apply df_con_produccion_In in Hin as [Hin Hne].
  pose proof (df_por_municipio_no_negativo csv año Hcsv) as Hall.
  rewrite List.Forall_forall in Hall. specialize (Hall _ Hin). simpl in Hall. lra.
Qed.

Lemma volumenes_no_negativos (filas : list fila_siap) :
  sin_desbordamiento (volumenes filas) ->
  forall r, In r filas -> 0 <= Volumenproduccion (produccion r).
Proof.
  intros [Hall _] r Hr. rewrite List.Forall_forall in Hall.
  apply Hall. unfold volumenes. now apply (in_map (fun r => Volumenproduccion (produccion r))).
Qed.

(** C10, as the code has it.  In the municipal map the keys whose summed
    volume is 0 are removed before the logarithm is taken.  So, when no raw
    volume of the year is negative and their total stays below [2^63] (no
    sum wraps around or overflows), every volume that reaches [log10] is
    strictly positive and every cell of the ["log"] column is finite.  The
    bounds of the scale are finite as soon as one key is left; when none is
    left the column is empty and both bounds are NaN. *)
Theorem logaritmo_municipal {P : Plataforma} (csv : list fila_siap) (año : Z) :
  sin_desbordamiento (volumenes (filas_del_año csv año)) ->
  let df := df_municipal csv año in
  let e := crear_escala (columna log df) in
  (forall k m, In (k, m) (df_con_produccion csv año)
               <-> In (k, m) (df_por_municipio csv año)
                   /\ Volumenproduccion m <> 0)
  /\ Forall (fun fila =>
               0 < Volumenproduccion (medida fila.2)
               /\ log fila.2 = np_log10 (Volumenproduccion (medida fila.2))
               /\ isfinite (log fila.2) = true) df
  /\ (df <> [] ->
      exists lo hi, min_val e = Fin lo /\ max_val e = Fin hi /\ lo <= hi)
  /\ (df = [] -> min_val e = NaN /\ max_val e = NaN).
Proof.
  intros Hsin df e.
  pose proof (volumenes_no_negativos _ Hsin) as Hcsv.
  pose proof (df_con_produccion_positivo csv año Hcsv) as Hpos.
  split; [intros k m; apply df_con_produccion_In|]. split; [|split].
  - apply List.Forall_forall. intros fila Hin.
    apply in_map_iff in Hin as ([k m] & <- & Hin). simpl.
    assert (0 < Volumenproduccion m) as Hm.
    { rewrite List.Forall_forall in Hpos. apply Hpos.
      apply in_map_iff. now exists (k, m). }
    split; [exact Hm|]. split; [reflexivity|]. now rewrite np_log10_pos.
  - intros Hne. subst e df. rewrite columna_log_municipal.
    destruct (crear_escala_positiva
                (columna Volumenproduccion (df_con_produccion csv año)))
      as (Hmin & Hmax & _ & Hle); [|exact Hpos|eauto].
    intros Hnil. apply Hne. unfold df_municipal.
    destruct (df_con_produccion csv año); [reflexivity|discriminate Hnil].
  - intros Hnil. subst e. rewrite Hnil. split; reflexivity.
Qed.

Lemma logaritmo_municipal_witness :
  let csv := [{| Anio := 2023; Nomestado := Some "Michoacán"; Idestado := 16;
                 Idmunicipio := 102;
                 produccion := {| Volumenproduccion := 100;
                                  Valorproduccion := 5000 |} |}] in
  let e := crear_escala (P := plataforma_ideal) (columna log (df_municipal csv 2023)) in
  exists lo hi, min_val e = Fin lo /\ max_val e = Fin hi /\ lo <= hi.
Proof.
  intros csv e.
  apply (logaritmo_municipal (P := plataforma_ideal) csv 2023).
  - split.
    + repeat constructor. simpl. lra.
    + unfold series_sum. simpl. lra.
  - assert (Hg : df_por_municipio csv 2023
                 = [("16102", {| Volumenproduccion := 100;
                                 Valorproduccion := 5000 |})])
      by reflexivity.
    unfold df_municipal, df_con_produccion. rewrite Hg.
    cbn [List.filter snd Volumenproduccion].
    destruct (Req_dec_T 100 0); [lra|discriminate].
Defined.

(** When the only municipality of the year has no production, no row is
    left and the bounds of the scale are NaN. *)
Lemma logaritmo_municipal_counterexample :
  let csv := [{| Anio := 2023; Nomestado := Some "Michoacán"; Idestado := 16;
                 Idmunicipio := 102;
                 produccion := {| Volumenproduccion := 0;
                                  Valorproduccion := 0 |} |}] in
  let e := crear_escala (P := plataforma_ideal) (columna log (df_municipal csv 2023)) in
  (forall r, In r csv -> 0 <= Volumenproduccion (produccion r))
  /\ isfinite (min_val e) = false
  /\ isfinite (max_val e) = false.
Proof.
  intros csv e. split.
  - intros r [<-|[]]. simpl. lra.
  - assert (Hg : df_por_municipio csv 2023
                 = [("16102", {| Volumenproduccion := 0; Valorproduccion := 0 |})])
      by reflexivity.
    assert (Hdf : df_municipal csv 2023 = []).
    { unfold df_municipal, df_con_produccion. rewrite Hg.
      cbn [List.filter snd Volumenproduccion].
      destruct (Req_dec_T 0 0); [reflexivity|contradiction]. }
    subst e. rewrite Hdf. split; reflexivity.
Qed.

(* ===================================================================== *)
(** * Further properties of the scripts *)
(* ===================================================================== *)

(** ** The scale of an arbitrary column *)

Lemma crear_etiquetas_map {P : Plataforma} (ticks : list float64) :
  crear_etiquetas ticks = map etiqueta ticks.
Proof.
  unfold crear_etiquetas.
  assert (H : forall acc,
             fold_left (fun etiquetas item => etiquetas ++ [etiqueta item]) ticks acc
             = acc ++ map etiqueta ticks).
  { induction ticks as [|t ticks IH]; intros acc; simpl.
    - now rewrite app_nil_r.
    - now rewrite IH, <- app_assoc. }
  apply (H []).
Qed.

Lemma linspace_11 (start stop : float64) :
  length (linspace start stop 11) = 11%nat
  /\ linspace start stop 11 !! 10%nat = Some stop.
Proof.
  unfold linspace, arange.
  change (0 <? 11 - 1)%nat with true. change (1 <? 11)%nat with true.
  change (11 - 1)%nat with 10%nat. cbv beta iota zeta.
  destruct (f_eqb (f_div (f_sub stop start) (Fin (INR 10))) (Fin 0));
    split; reflexivity.
Qed.

(** X1. The scale has 11 ticks and 11 labels whatever the column holds (nothing,
    infinities, NaN); label [i] is the text of tick [i], and the last tick
    is the upper bound itself. *)
Theorem escala_once_marcas {P : Plataforma} (columna_log : list float64) :
  let e := crear_escala columna_log in
  length (marcas e) = 11%nat
  /\ length (etiquetas e) = 11%nat
  /\ marcas e !! 10%nat = Some (max_val e)
  /\ forall (i : nat) (t : float64),
       marcas e !! i = Some t -> etiquetas e !! i = Some (etiqueta t).
Proof.
  intros e. subst e. unfold crear_escala. cbn [marcas etiquetas max_val].
  destruct (linspace_11 (series_min columna_log) (series_max columna_log))
    as [Hlen Hlast].
  rewrite crear_etiquetas_map. split; [exact Hlen|].
  split; [now rewrite length_map|]. split; [exact Hlast|].
  intros i t Hi. change (map etiqueta ?l) with (etiqueta <$> l).
  now rewrite list_lookup_fmap, Hi.
Qed.

(** ** Minimum and maximum of a column with infinities *)

Lemma f_le_refl (x : float64) : isnan x = false -> f_le x x.
Proof. destruct x; simpl; intros H; try tauto; try discriminate. lra. Qed.

Lemma f_le_trans (x y w : float64) : f_le x y -> f_le y w -> f_le x w.
Proof. destruct x, y, w; simpl; try tauto. lra. Qed.

Lemma f_min_spec (x y : float64) :
  isnan x = false -> isnan y = false ->
  (f_min x y = x \/ f_min x y = y)
  /\ f_le (f_min x y) x /\ f_le (f_min x y) y.
Proof.
  destruct x as [a| | |], y as [b| | |]; simpl; intros Hx Hy;
    try discriminate; try (intuition lra).
  unfold Rmin. destruct (Rle_dec a b); intuition lra.
Qed.

Lemma f_max_spec (x y : float64) :
  isnan x = false -> isnan y = false ->
  (f_max x y = x \/ f_max x y = y)
  /\ f_le x (f_max x y) /\ f_le y (f_max x y).
Proof.
  destruct x as [a| | |], y as [b| | |]; simpl; intros Hx Hy;
    try discriminate; try (intuition lra).
  unfold Rmax. destruct (Rle_dec a b); intuition lra.
Qed.

Lemma fold_f_min_spec (xs : list float64) (x : float64) :
  Forall (fun y => isnan y = false) (x :: xs) ->
  In (fold_left f_min xs x) (x :: xs)
  /\ isnan (fold_left f_min xs x) = false
  /\ forall y, In y (x :: xs) -> f_le (fold_left f_min xs x) y.
Proof.
  revert x. induction xs as [|a xs IH]; intros x Hall.
  - apply Forall_inv in Hall. simpl. split; [now left|]. split; [exact Hall|].
    intros y [<-|[]]. now apply f_le_refl.
  - pose proof (Forall_inv Hall) as Hx.
    pose proof (Forall_inv (Forall_inv_tail Hall)) as Ha.
    pose proof (Forall_inv_tail (Forall_inv_tail Hall)) as Hxs.
    destruct (f_min_spec x a Hx Ha) as (Hcase & Hlx & Hla).
    assert (Hm : isnan (f_min x a) = false) by (destruct Hcase as [-> | ->]; assumption).
    destruct (IH (f_min x a)) as (Hin & Hnan & Hle); [now constructor|].
    cbn [fold_left]. split; [|split; [exact Hnan|]].
    + destruct Hin as [Heq|Hin]; [|now right; right].
      rewrite <- Heq. destruct Hcase as [-> | ->]; [now left|right; now left].
    + assert (Hf : f_le (fold_left f_min xs (f_min x a)) (f_min x a))
        by (apply Hle; now left).
      intros y [<-|[<-|Hy]].
      * now apply f_le_trans with (f_min x a).
      * now apply f_le_trans with (f_min x a).
      * apply Hle. now right.
Qed.

Lemma fold_f_max_spec (xs : list float64) (x : float64) :
  Forall (fun y => isnan y = false) (x :: xs) ->
  In (fold_left f_max xs x) (x :: xs)
  /\ isnan (fold_left f_max xs x) = false
  /\ forall y, In y (x :: xs) -> f_le y (fold_left f_max xs x).
Proof.
  revert x. induction xs as [|a xs IH]; intros x Hall.
  - apply Forall_inv in Hall. simpl. split; [now left|]. split; [exact Hall|].
    intros y [<-|[]]. now apply f_le_refl.
  - pose proof (Forall_inv Hall) as Hx.
    pose proof (Forall_inv (Forall_inv_tail Hall)) as Ha.
    pose proof (Forall_inv_tail (Forall_inv_tail Hall)) as Hxs.
    destruct (f_max_spec x a Hx Ha) as (Hcase & Hlx & Hla).
    assert (Hm : isnan (f_max x a) = false) by (destruct Hcase as [-> | ->]; assumption).
    destruct (IH (f_max x a)) as (Hin & Hnan & Hle); [now constructor|].
    cbn [fold_left]. split; [|split; [exact Hnan|]].
    + destruct Hin as [Heq|Hin]; [|now right; right].
      rewrite <- Heq. destruct Hcase as [-> | ->]; [now left|right; now left].
    + assert (Hf : f_le (f_max x a) (fold_left f_max xs (f_max x a)))
        by (apply Hle; now left).
      intros y [<-|[<-|Hy]].
      * now apply f_le_trans with (f_max x a).
      * now apply f_le_trans with (f_max x a).
      * apply Hle. now right.
Qed.

Lemma dropna_In (s : list float64) (x : float64) :
  In x (dropna s) <-> In x s /\ isnan x = false.
Proof.
  unfold dropna. rewrite filter_In. now destruct (isnan x).
Qed.

Lemma dropna_Forall (s : list float64) :
  Forall (fun y => isnan y = false) (dropna s).
Proof. apply List.Forall_forall. intros y Hy. now apply dropna_In in Hy. Qed.

Lemma series_min_spec (s : list float64) (x : float64) :
  In x s -> isnan x = false ->
  In (series_min s) s
  /\ isnan (series_min s) = false
  /\ forall y, In y s -> isnan y = false -> f_le (series_min s) y.
Proof.
  intros Hx Hnan. unfold series_min.
  pose proof (dropna_Forall s) as Hall. pose proof (dropna_In s) as Hd.
  destruct (dropna s) as [|a xs].
  - exfalso. now apply (Hd x).
  - destruct (fold_f_min_spec xs a Hall) as (Hin & Hn & Hle).
    split; [now apply Hd|]. split; [exact Hn|].
    intros y Hy Hyn. apply Hle. now apply Hd.
Qed.

Lemma series_max_spec (s : list float64) (x : float64) :
  In x s -> isnan x = false ->
  In (series_max s) s
  /\ isnan (series_max s) = false
  /\ forall y, In y s -> isnan y = false -> f_le y (series_max s).
Proof.
  intros Hx Hnan. unfold series_max.
  pose proof (dropna_Forall s) as Hall. pose proof (dropna_In s) as Hd.
  destruct (dropna s) as [|a xs].
  - exfalso. now apply (Hd x).
  - destruct (fold_f_max_spec xs a Hall) as (Hin & Hn & Hle).
    split; [now apply Hd|]. split; [exact Hn|].
    intros y Hy Hyn. apply Hle. now apply Hd.
Qed.

(** ** A column with a zero volume *)

Lemma inf_por_mas_NInf (a : R) : 0 <= a -> f_add (inf_por true a) NInf = NaN.
Proof.
  intros Ha. unfold inf_por.
  destruct (Rlt_dec 0 a); [reflexivity|].
  destruct (Rlt_dec a 0); [lra|reflexivity].
Qed.

Lemma linspace_NInf (hi : R) :
  linspace NInf (Fin hi) 11 = replicate 10 NaN ++ [Fin hi].
Proof.
  unfold linspace, arange.
  change (0 <? 11 - 1)%nat with true. change (1 <? 11)%nat with true.
  change (11 - 1)%nat with 10%nat. cbv beta iota zeta.
  assert (H10 : 0 < / INR 10).
  { apply Rinv_0_lt_compat, lt_0_INR. lia. }
  assert (Hstep : f_div (f_sub (Fin hi) NInf) (Fin (INR 10)) = PInf).
  { unfold f_div, f_sub, f_inv. cbn [f_opp f_add].
    destruct (Req_dec_T (INR 10) 0) as [H0|_].
    - rewrite H0, Rinv_0 in H10. lra.
    - cbn [f_mul]. unfold inf_por. destruct (Rlt_dec 0 (/ INR 10)); [reflexivity|lra]. }
  rewrite Hstep. cbn [f_eqb]. rewrite !map_map.
  rewrite (map_ext _ (fun _ : nat => NaN)).
  - reflexivity.
  - intros i. cbn [f_mul]. apply inf_por_mas_NInf, pos_INR.
Qed.

Lemma np_log10_no_nan (v : R) : 0 <= v -> isnan (np_log10 v) = false.
Proof.
  intros Hv. unfold np_log10.
  destruct (Rlt_dec 0 v); [reflexivity|].
  destruct (Req_dec_T v 0); [reflexivity|lra].
Qed.

Lemma np_log10_0 : np_log10 0 = NInf.
Proof.
  unfold np_log10. destruct (Rlt_dec 0 0); [lra|].
  destruct (Req_dec_T 0 0); [reflexivity|contradiction].
Qed.

Lemma etiqueta_nan {P : Plataforma} : potencia NaN = NaN -> etiqueta NaN = "nan".
Proof. intros H. unfold etiqueta. now rewrite H. Qed.

(** A column of volumes none of which is negative, with a zero and a
    positive one among them. *)
Lemma escala_con_cero {P : Plataforma} (values : list R) :
  potencia NaN = NaN ->
  Forall (fun v => 0 <= v) values ->
  In 0 values ->
  (exists v, In v values /\ 0 < v) ->
  let e := crear_escala (map np_log10 values) in
  min_val e = NInf
  /\ max_val e = Fin (log10 (MaxRlist values))
  /\ marcas e = replicate 10 NaN ++ [max_val e]
  /\ etiquetas e = replicate 10 "nan" ++ [etiqueta (max_val e)].
Proof.
  intros Hnan Hpos H0 (v & Hv & Hvpos) e.
  rewrite List.Forall_forall in Hpos.
  assert (Hne : values <> []) by (intros ->; contradiction).
  assert (Hin0 : In NInf (map np_log10 values)).
  { rewrite <- np_log10_0. now apply in_map. }
  assert (Hmin : series_min (map np_log10 values) = NInf).
  { destruct (series_min_spec _ NInf Hin0 eq_refl) as (_ & _ & Hle).
    specialize (Hle NInf Hin0 eq_refl).
    destruct (series_min (map np_log10 values)); simpl in Hle; tauto. }
  assert (Hmaxpos : 0 < MaxRlist values).
  { pose proof (MaxRlist_P1 _ _ Hv). lra. }
  assert (Hmax : series_max (map np_log10 values) = Fin (log10 (MaxRlist values))).
  { destruct (series_max_spec _ NInf Hin0 eq_refl) as (Hin & _ & Hle).
    specialize (Hle (np_log10 (MaxRlist values))
                  (in_map _ _ _ (MaxRlist_In _ Hne))
                  (np_log10_no_nan _ (Rlt_le _ _ Hmaxpos))).
    rewrite np_log10_pos in Hle by assumption.
    apply in_map_iff in Hin as (w & Hw & Hwin). rewrite <- Hw in *.
    pose proof (MaxRlist_P1 _ _ Hwin) as Hwmax.
    unfold np_log10 in *. destruct (Rlt_dec 0 w) as [Hwpos|Hw0].
    - simpl in Hle. f_equal. apply Rle_antisym; [|exact Hle].
      now apply log10_le.
    - destruct (Req_dec_T w 0); simpl in Hle; contradiction. }
  subst e. unfold crear_escala. cbn [min_val max_val marcas etiquetas].
  rewrite Hmin, Hmax, linspace_NInf, crear_etiquetas_map.
  repeat split. rewrite map_app. cbn [map replicate]. now rewrite !etiqueta_nan.
Qed.

(** ** Joined values and the domain of the scale *)

Lemma loc_Escalar {V A : Type} (df : frame V) (geo : string) (col : V -> A) (x : A) :
  loc df geo col = Ok (Escalar x) -> exists fila, In (geo, fila) df /\ x = col fila.
Proof.
  unfold loc. intros H.
  destruct (List.filter (fun fila => String.eqb fila.1 geo) df)
    as [|[k fila] [|otra resto]] eqn:Hf; try discriminate.
  injection H as <-. exists fila. split; [|reflexivity].
  assert (Hin : In (k, fila) (List.filter (fun fila => String.eqb fila.1 geo) df))
    by (rewrite Hf; now left).
  apply filter_In in Hin as [Hin Hk]. simpl in Hk.
  now apply String.eqb_eq in Hk as ->.
Qed.

(** X3. In both production maps, a joined value that is a number (neither
    null nor NaN) lies within the domain [zmin, zmax] handed to the colour
    bar, whatever the frame and the catalog. *)
Theorem valores_dentro_del_dominio {P : Plataforma} {F : Type} (propiedad : F -> string)
    (df : frame fila_log) (features : list F) (c : Choropleth)
    (i : nat) (x : float64) :
  capa propiedad df features = Ok c ->
  z c !! i = Some (Some (Escalar x)) ->
  isnan x = false ->
  f_le (zmin c) x /\ f_le x (zmax c).
Proof.
  intros Hc Hz Hnan. rewrite capa_Ok in Hc. injection Hc as <-.
  cbn [z zmin zmax] in *. unfold crear_escala. cbn [min_val max_val].
  change (map ?f ?l) with (f <$> l) in Hz. rewrite list_lookup_fmap in Hz.
  destruct (features !! i) as [item|]; [|discriminate]. simpl in Hz.
  injection Hz as Hz. unfold valor_unido in Hz.
  destruct (loc df (propiedad item) log) as [cel|] eqn:Hloc; [|discriminate].
  injection Hz as ->. apply loc_Escalar in Hloc as (fila & Hin & ->).
  assert (Hcol : In (log fila) (columna log df)).
  { unfold columna. apply in_map_iff. now exists (propiedad item, fila). }
  split.
  - now apply (series_min_spec _ _ Hcol Hnan).
  - now apply (series_max_spec _ _ Hcol Hnan).
Qed.

Lemma valores_dentro_del_dominio_witness :
  let df := [("A", {| medida := {| Volumenproduccion := 100; Valorproduccion := 1 |};
                      log := Fin 2 |});
             ("B", {| medida := {| Volumenproduccion := 1000; Valorproduccion := 1 |};
                      log := Fin 3 |})] in
  exists c, capa (P := plataforma_ideal) NOMGEO df [{| NOMGEO := "B" |}] = Ok c
            /\ f_le (zmin c) (Fin 3) /\ f_le (Fin 3) (zmax c).
Proof.
  intros df. eexists. split; [apply capa_Ok|].
  apply (valores_dentro_del_dominio (P := plataforma_ideal) NOMGEO df [{| NOMGEO := "B" |}] _ 0%nat (Fin 3)).
  - apply capa_Ok.
  - reflexivity.
  - reflexivity.
Defined.

(** ** The municipality key *)

Lemma zfill_decimal_ok (width : nat) (cota : nat) :
  forallb
    (fun n =>
       (String.length (zfill width (decimal (N.of_nat n))) =? width)%nat
       && match leer_decimal (zfill width (decimal (N.of_nat n))) with
          | Some b => N.eqb (N.of_nat n) b
          | None => false
          end)%bool
    (seq 0 cota) = true ->
  forall a : N, (a < N.of_nat cota)%N ->
    String.length (zfill width (decimal a)) = width
    /\ leer_decimal (zfill width (decimal a)) = Some a.
Proof.
  intros Hall a Ha. rewrite forallb_forall in Hall.
  assert (Hn : In (N.to_nat a) (seq 0 cota)) by (apply in_seq; lia).
  apply Hall in Hn. rewrite N2Nat.id in Hn. apply andb_prop in Hn as [H1 H2].
  split; [now apply Nat.eqb_eq|].
  destruct (leer_decimal (zfill width (decimal a))) as [b|]; [|discriminate].
  now apply N.eqb_eq in H2 as <-.
Qed.

Lemma zfill_2_decimal (a : N) :
  (a < 100)%N ->
  String.length (zfill 2 (decimal a)) = 2%nat
  /\ leer_decimal (zfill 2 (decimal a)) = Some a.
Proof. apply (zfill_decimal_ok 2 100). vm_compute. reflexivity. Qed.

Lemma zfill_3_decimal (a : N) :
  (a < 1000)%N ->
  String.length (zfill 3 (decimal a)) = 3%nat
  /\ leer_decimal (zfill 3 (decimal a)) = Some a.
Proof. apply (zfill_decimal_ok 3 1000). vm_compute. reflexivity. Qed.

Lemma length_append (s1 s2 : string) :
  String.length (s1 ++ s2) = (String.length s1 + String.length s2)%nat.
Proof.
  induction s1 as [|c s1 IH]; [reflexivity|].
  change (S (String.length (s1 ++ s2)) = S (String.length s1 + String.length s2)).
  now rewrite IH.
Qed.

Lemma append_inj_length (s1 s2 t1 t2 : string) :
  String.length s1 = String.length t1 ->
  (s1 ++ s2)%string = (t1 ++ t2)%string -> s1 = t1 /\ s2 = t2.
Proof.
  revert t1. induction s1 as [|c s1 IH]; intros [|d t1] Hlen Heq;
    try discriminate Hlen.
  - now split.
  - change (String c (s1 ++ s2) = String d (t1 ++ t2)) in Heq.
    injection Heq as -> Heq. injection Hlen as Hlen.
    destruct (IH t1 Hlen Heq) as [-> ->]. now split.
Qed.

(** X4. For state numbers below 100 and municipality numbers below 1000 the
    key [CVE] has exactly five characters and two rows get the same key
    exactly when they agree on both numbers.  Beyond those bounds [zfill]
    does not cut, and different places can share a key: state 10 with
    municipality 1000 and state 101 with municipality 0 both get 101000. *)
Theorem CVE_inyectiva (r r' : fila_siap) :
  (Idestado r < 100)%N -> (Idmunicipio r < 1000)%N ->
  (Idestado r' < 100)%N -> (Idmunicipio r' < 1000)%N ->
  String.length (CVE r) = 5%nat
  /\ (CVE r = CVE r'
      <-> Idestado r = Idestado r' /\ Idmunicipio r = Idmunicipio r')
  /\ (forall a b a' b' m,
        CVE {| Anio := a; Nomestado := b; Idestado := 10; Idmunicipio := 1000;
               produccion := m |}
        = CVE {| Anio := a'; Nomestado := b'; Idestado := 101; Idmunicipio := 0;
                 produccion := m |}).
Proof.
  intros He Hm He' Hm'. unfold CVE.
  destruct (zfill_2_decimal _ He) as [Hl2 Hp2].
  destruct (zfill_3_decimal _ Hm) as [Hl3 Hp3].
  destruct (zfill_2_decimal _ He') as [Hl2' Hp2'].
  destruct (zfill_3_decimal _ Hm') as [Hl3' Hp3'].
  split; [now rewrite length_append, Hl2, Hl3|]. split; [split|].
  - intros Heq. apply append_inj_length in Heq as [H2 H3]; [|congruence].
    rewrite H2 in Hp2. rewrite H3 in Hp3. split; congruence.
  - intros [-> ->]. reflexivity.
  - intros. reflexivity.
Qed.

Lemma CVE_inyectiva_witness :
  let r := {| Anio := 2023; Nomestado := Some "Aguascalientes"; Idestado := 1;
              Idmunicipio := 1;
              produccion := {| Volumenproduccion := 1; Valorproduccion := 1 |} |} in
  let r' := {| Anio := 2023; Nomestado := Some "Colima"; Idestado := 10;
               Idmunicipio := 1;
               produccion := {| Volumenproduccion := 1; Valorproduccion := 1 |} |} in
  String.length (CVE r) = 5%nat /\ CVE r <> CVE r'.
Proof.
  intros r r'.
  destruct (CVE_inyectiva r r' eq_refl eq_refl eq_refl eq_refl) as (Hlen & Hiff & _).
  split; [exact Hlen|]. intros Heq. apply Hiff in Heq as [Heq _]. discriminate Heq.
Defined.

(** ** Aggregation in [sum] mode and the national totals *)

Lemma fold_Rplus (l : list R) (x : R) : fold_left Rplus l x = x + series_sum l.
Proof.
  unfold series_sum. revert x. induction l as [|a l IH]; intros x; simpl.
  - lra.
  - rewrite (IH (x + a)), (IH (0 + a)). lra.
Qed.

Lemma series_sum_cons (a : R) (l : list R) : series_sum (a :: l) = a + series_sum l.
Proof. unfold series_sum at 1. simpl. rewrite fold_Rplus. lra. Qed.

Lemma series_sum_div (l : list R) (c : R) :
  series_sum (map (fun x => x / c) l) = series_sum l / c.
Proof.
  induction l as [|a l IH]; simpl.
  - unfold series_sum. simpl. lra.
  - rewrite !series_sum_cons, IH. lra.
Qed.

Lemma fold_sum_columna (col : medidas -> R) (vs : list medidas) (v : medidas) :
  (forall a b, col (sum_medidas a b) = col a + col b) ->
  col (fold_left sum_medidas vs v) = series_sum (map col (v :: vs)).
Proof.
  intros Hcol. simpl. rewrite series_sum_cons.
  revert v. induction vs as [|a vs IH]; intros v; simpl.
  - unfold series_sum. simpl. lra.
  - rewrite IH, Hcol, series_sum_cons. lra.
Qed.

Lemma valores_de_map {A V : Type} (clave : A -> option string) (valor : A -> V)
    (filas : list A) (k : string) :
  valores_de k (map (fun r => (clave r, valor r)) filas)
  = map valor
      (List.filter
         (fun r => match clave r with Some k' => String.eqb k k' | None => false end)
         filas).
Proof.
  unfold valores_de. induction filas as [|r filas IH]; [reflexivity|].
  cbn [map List.filter fst].
  destruct (clave r) as [k'|]; [destruct (String.eqb k k')|]; cbn [map snd];
    now rewrite IH.
Qed.

Lemma index_df_por_entidad (csv : list fila_siap) (año : Z) (k : string) :
  In k (index (df_por_entidad csv año))
  <-> exists r, In r (filas_del_año csv año) /\ Nomestado r = Some k.
Proof.
  unfold df_por_entidad. rewrite groupby_index.
  fold (filas_del_año csv año). split.
  - intros (v & Hin). apply in_map_iff in Hin as (r & [= Hk _] & Hr). eauto.
  - intros (r & Hr & Hk). exists (produccion r). apply in_map_iff.
    exists r. now rewrite Hk.
Qed.

Lemma total_por_entidad (csv : list fila_siap) (año : Z) (k : string) (m : medidas) :
  In (k, m) (df_por_entidad csv año) ->
  Volumenproduccion m
  = series_sum (volumenes (filas_de_entidad k (filas_del_año csv año)))
  /\ Valorproduccion m
     = series_sum (map (fun r => Valorproduccion (produccion r))
                       (filas_de_entidad k (filas_del_año csv año))).
Proof.
  intros Hin.
  assert (Hs : ordenado (index (df_por_entidad csv año))) by apply groupby_ordenado.
  apply (In_buscar _ _ _ (ordenado_NoDup _ Hs)) in Hin.
  unfold df_por_entidad in Hin. rewrite groupby_buscar in Hin.
  fold (filas_del_año csv año) in Hin.
  rewrite valores_de_map in Hin.
  fold (filas_de_entidad k (filas_del_año csv año)) in Hin.
  unfold volumenes.
  destruct (filas_de_entidad k (filas_del_año csv año)) as [|r0 grupo]; [discriminate|].
  cbn [map reducir] in Hin. injection Hin as <-.
  split.
  - rewrite (fold_sum_columna Volumenproduccion) by reflexivity.
    cbn [map]. now rewrite map_map.
  - rewrite (fold_sum_columna Valorproduccion) by reflexivity.
    cbn [map]. now rewrite map_map.
Qed.

(** X5. Grouping the production rows of a year by state in [sum] mode
    gives one row per state name, in ascending order of the names, and a
    row without a state name is left out.  When the volumes of the year
    are whole numbers whose absolute values add up to less than [2^53],
    the volume of a state is the sum of the volumes of its rows; and so
    for the values. *)
Theorem suma_por_entidad (csv : list fila_siap) (año : Z) :
  let filas := filas_del_año csv año in
  let df := df_por_entidad csv año in
  ordenado (index df)
  /\ (forall k, In k (index df) <-> exists r, In r filas /\ Nomestado r = Some k)
  /\ (enteros_acotados (volumenes filas) ->
      forall k m, In (k, m) df ->
        Volumenproduccion m = series_sum (volumenes (filas_de_entidad k filas)))
  /\ (enteros_acotados (map (fun r => Valorproduccion (produccion r)) filas) ->
      forall k m, In (k, m) df ->
        Valorproduccion m
        = series_sum (map (fun r => Valorproduccion (produccion r))
                          (filas_de_entidad k filas))).
Proof.
  intros filas df.
  split; [apply groupby_ordenado|]. split; [intros k; apply index_df_por_entidad|].
  split; intros _ k m Hin; now apply total_por_entidad in Hin.
Qed.

Ltac enteros :=
  split;
  [ repeat constructor; simpl;
    match goal with |- exists n : Z, ?v = IZR n => now eexists end
  | unfold series_sum; simpl; rewrite ?Rabs_pos_eq by lra; lra ].

Lemma suma_por_entidad_witness :
  let fila k x := {| Anio := 2023; Nomestado := k; Idestado := 16; Idmunicipio := 1;
                     produccion := {| Volumenproduccion := x;
                                      Valorproduccion := 2 * x |} |} in
  let csv := [fila (Some "Jalisco") 5; fila None 7; fila (Some "Jalisco") 3] in
  exists m, In ("Jalisco", m) (df_por_entidad csv 2023)
            /\ Volumenproduccion m = 8.
Proof.
  intros fila csv.
  exists (sum_medidas (produccion (fila None 5)) (produccion (fila None 3))).
  assert (Hin : In ("Jalisco",
                    sum_medidas (produccion (fila None 5)) (produccion (fila None 3)))
                   (df_por_entidad csv 2023)) by (left; reflexivity).
  split; [exact Hin|].
  destruct (suma_por_entidad csv 2023) as (_ & _ & Hsum & _).
  rewrite (Hsum ltac:(enteros) _ _ Hin).
  change (filas_de_entidad "Jalisco" (filas_del_año csv 2023))
    with [fila (Some "Jalisco") 5; fila (Some "Jalisco") 3].
  unfold volumenes. cbn [map fila produccion Volumenproduccion].
  rewrite !series_sum_cons. unfold series_sum. simpl. lra.
Defined.

Lemma upsert_total (col : medidas -> R) (k : string) (v : medidas)
    (df : frame medidas) :
  (forall a b, col (sum_medidas a b) = col a + col b) ->
  series_sum (columna col (upsert sum_medidas k v df))
  = series_sum (columna col df) + col v.
Proof.
  intros Hcol. unfold columna.
  induction df as [|[k0 v0] df IH]; simpl.
  - rewrite series_sum_cons. lra.
  - destruct (String_as_OT.compare k k0); cbn [map snd];
      rewrite ?series_sum_cons, ?Hcol, ?IH; cbn [map snd];
      rewrite ?series_sum_cons; lra.
Qed.

Lemma groupby_total (col : medidas -> R) (filas : list (option string * medidas)) :
  (forall a b, col (sum_medidas a b) = col a + col b) ->
  series_sum (columna col (groupby sum_medidas filas))
  = series_sum
      (map (fun fila => col fila.2)
           (List.filter (fun fila => match fila.1 with Some _ => true | None => false end)
                        filas)).
Proof.
  intros Hcol. unfold groupby.
  change (fold_left _ filas []) with (fold_left (paso sum_medidas) filas []).
  assert (H : forall acc,
             series_sum (columna col (fold_left (paso sum_medidas) filas acc))
             = series_sum (columna col acc)
               + series_sum
                   (map (fun fila => col fila.2)
                        (List.filter
                           (fun fila => match fila.1 with Some _ => true | None => false end)
                           filas))).
  { induction filas as [|[[k|] v] filas IH]; intros acc; cbn [fold_left List.filter fst].
    - unfold series_sum at 3. simpl. lra.
    - rewrite IH. unfold paso. cbn [fst snd map].
      rewrite upsert_total, series_sum_cons by assumption. lra.
    - rewrite IH. reflexivity. }
  rewrite H. unfold columna, series_sum at 1. simpl. lra.
Qed.

Lemma filter_total (df : frame medidas) :
  series_sum
    (columna Volumenproduccion
       (List.filter
          (fun fila => if Req_dec_T (Volumenproduccion fila.2) 0 then false else true)
          df))
  = series_sum (columna Volumenproduccion df).
Proof.
  unfold columna. induction df as [|[k m] df IH]; [reflexivity|].
  cbn [List.filter map snd].
  destruct (Req_dec_T (Volumenproduccion m) 0) as [H0|_]; cbn [map snd];
    rewrite ?series_sum_cons, IH; lra.
Qed.

(** X6. When the volumes of the year are whole numbers whose absolute
    values add up to less than [2^53], the national volume shown under the
    municipal map is the sum of the volumes of all the rows of the year:
    grouping by municipality keeps the total, and the municipalities that
    are removed have no volume. *)
Theorem total_nacional_municipal (csv : list fila_siap) (año : Z) :
  enteros_acotados (volumenes (filas_del_año csv año)) ->
  let total := series_sum (volumenes (filas_del_año csv año)) in
  series_sum
    (columna (fun fila => Volumenproduccion (medida fila)) (df_municipal csv año))
  = total
  /\ exists resto : string,
       subtitulo_municipal (df_municipal csv año)
       = ("Nacional: <b>" ++ format_f 0 (Fin total) ++ "</b> toneladas"
          ++ resto)%string.
Proof.
  intros _ total.
  assert (Hvol : series_sum
                   (columna (fun fila => Volumenproduccion (medida fila))
                            (df_municipal csv año))
                 = total).
  { unfold df_municipal, columna. rewrite map_map. cbn [snd medida].
    change (map (fun x : string * medidas => Volumenproduccion x.2)
                (df_con_produccion csv año))
      with (columna Volumenproduccion (df_con_produccion csv año)).
    unfold df_con_produccion. rewrite filter_total.
    unfold df_por_municipio. rewrite groupby_total by reflexivity.
    fold (filas_del_año csv año).
    rewrite forallb_filter_id.
    - now rewrite map_map.
    - apply forallb_forall. intros fila Hin.
      now apply in_map_iff in Hin as (r & <- & _). }
  split; [exact Hvol|].
  unfold subtitulo_municipal. rewrite Hvol. eexists.
  change ("</b> toneladas (con un valor de: <b>")
    with ("</b> toneladas" ++ " (con un valor de: <b>")%string.
  rewrite (append_asociativa "</b> toneladas"). reflexivity.
Qed.

Lemma total_nacional_municipal_witness :
  let fila k a b x := {| Anio := 2023; Nomestado := k; Idestado := a;
                         Idmunicipio := b;
                         produccion := {| Volumenproduccion := x;
                                          Valorproduccion := 2 * x |} |} in
  let csv := [fila (Some "Jalisco") 14%N 1%N 5; fila None 14%N 2%N 7;
              fila (Some "Jalisco") 14%N 3%N 0] in
  series_sum
    (columna (fun fila => Volumenproduccion (medida fila)) (df_municipal csv 2023))
  = 12.
Proof.
  intros fila csv.
  destruct (total_nacional_municipal csv 2023) as [Hvol _]; [enteros|].
  rewrite Hvol. unfold series_sum. simpl. lra.
Defined.

Lemma filter_map_clave {A V : Type} (clave : A -> option string) (valor : A -> V)
    (filas : list A) :
  List.filter (fun fila : option string * V =>
                 match fila.1 with Some _ => true | None => false end)
              (map (fun r => (clave r, valor r)) filas)
  = map (fun r => (clave r, valor r))
        (List.filter (fun r => match clave r with Some _ => true | None => false end)
                     filas).
Proof.
  induction filas as [|r filas IH]; [reflexivity|].
  simpl. destruct (clave r) eqn:Hk; simpl; rewrite ?Hk; now rewrite IH.
Qed.

(** Rows without a key do not reach a grouped frame. *)
Lemma groupby_sin_clave {V : Type} (f : V -> V -> V)
    (filas : list (option string * V)) :
  groupby f filas
  = groupby f
      (List.filter (fun fila => match fila.1 with Some _ => true | None => false end)
                   filas).
Proof.
  unfold groupby. generalize (@nil (string * V)) as acc.
  induction filas as [|[[k|] v] filas IH]; intros acc; simpl;
    [reflexivity|apply IH..].
Qed.

Lemma filas_del_año_con_entidad (csv : list fila_siap) (año : Z) :
  filas_del_año (filas_con_entidad (filas_del_año csv año)) año
  = filas_con_entidad (filas_del_año csv año).
Proof.
  unfold filas_del_año, filas_con_entidad.
  induction csv as [|r csv IH]; simpl; [reflexivity|].
  destruct (Z.eqb (Anio r) año) eqn:Ha; simpl; [|exact IH].
  destruct (Nomestado r); simpl; [|exact IH]. now rewrite Ha, IH.
Qed.

Lemma df_por_entidad_con_entidad (csv : list fila_siap) (año : Z) :
  df_por_entidad csv año
  = df_por_entidad (filas_con_entidad (filas_del_año csv año)) año.
Proof.
  unfold df_por_entidad.
  fold (filas_del_año csv año).
  fold (filas_del_año (filas_con_entidad (filas_del_año csv año)) año).
  rewrite filas_del_año_con_entidad.
  rewrite (groupby_sin_clave _ (map _ (filas_del_año csv año))).
  now rewrite filter_map_clave.
Qed.

(** X7. The rows of the year without a state name do not reach the frame
    of the state map.  When the volumes of the year are whole numbers
    whose absolute values add up to less than [2^53], the national volume
    shown under the state map is the sum of the volumes of the rows that
    carry a state name; the rows without one, which the municipal map
    counts, are not in it. *)
Theorem total_nacional_estatal (csv : list fila_siap) (año : Z) :
  enteros_acotados (volumenes (filas_del_año csv año)) ->
  let filas := filas_con_entidad (filas_del_año csv año) in
  df_renombrado csv año = df_renombrado filas año
  /\ exists resto : string,
       subtitulo_estatal (df_renombrado csv año)
       = ("Nacional: " ++ format_f 0 (Fin (series_sum (volumenes filas)))
          ++ " toneladas (" ++ resto)%string.
Proof.
  intros _ filas. split.
  - unfold df_renombrado. now rewrite df_por_entidad_con_entidad.
  - unfold subtitulo_estatal, df_renombrado, index_map, columna.
    rewrite !map_map. cbn [snd medida Volumenproduccion Valorproduccion].
    assert (Hvol : series_sum (map (fun x : string * medidas => Volumenproduccion x.2)
                                   (df_por_entidad csv año))
                   = series_sum (volumenes filas)).
    { change (map (fun x : string * medidas => Volumenproduccion x.2) ?l)
        with (columna Volumenproduccion l).
      unfold df_por_entidad. rewrite groupby_total by reflexivity.
      fold (filas_del_año csv año). rewrite filter_map_clave, map_map. reflexivity. }
    rewrite Hvol. eexists. reflexivity.
Qed.

Lemma total_nacional_estatal_witness :
  let fila k x := {| Anio := 2023; Nomestado := k; Idestado := 14; Idmunicipio := 1;
                     produccion := {| Volumenproduccion := x;
                                      Valorproduccion := 2 * x |} |} in
  let csv := [fila (Some "Jalisco") 5; fila None 7; fila (Some "Colima") 3] in
  df_renombrado csv 2023
  = df_renombrado [fila (Some "Jalisco") 5; fila (Some "Colima") 3] 2023.
Proof.
  intros fila csv.
  destruct (total_nacional_estatal csv 2023) as [Hdf _]; [enteros|].
  exact Hdf.
Defined.

(** ** The order of the rows of the state map and its two tables *)

Lemma insertar_desc_Permutation {V : Type} (col : V -> R) (fila : string * V)
    (df : frame V) :
  Permutation (fila :: df) (insertar_desc col fila df).
Proof.
  induction df as [|otra df IH]; simpl; [reflexivity|].
  destruct (Rlt_dec (col fila.2) (col otra.2)); [|reflexivity].
  rewrite perm_swap. now apply perm_skip.
Qed.

Lemma sort_values_desc_Permutation {V : Type} (col : V -> R) (df : frame V) :
  Permutation df (sort_values_desc col df).
Proof.
  induction df as [|fila df IH]; simpl; [reflexivity|].
  rewrite <- insertar_desc_Permutation. now apply perm_skip.
Qed.

Lemma insertar_desc_descendente {V : Type} (col : V -> R) (fila : string * V)
    (df : frame V) :
  descendente col df -> descendente col (insertar_desc col fila df).
Proof.
  unfold descendente. induction df as [|otra df IH]; simpl; intros Hs.
  - repeat constructor.
  - apply StronglySorted_inv in Hs as [Hs Hall].
    destruct (Rlt_dec (col fila.2) (col otra.2)) as [Hlt|Hge].
    + constructor; [now apply IH|].
      apply List.Forall_forall. intros b Hb.
      apply (Permutation_in _ (Permutation_sym (insertar_desc_Permutation col fila df)))
        in Hb.
      destruct Hb as [<-|Hb]; [lra|].
      rewrite List.Forall_forall in Hall. now apply Hall.
    + constructor; [now constructor|]. constructor; [lra|].
      eapply List.Forall_impl; [|exact Hall]. intros b Hb. simpl in Hb. lra.
Qed.

Lemma sort_values_desc_descendente {V : Type} (col : V -> R) (df : frame V) :
  descendente col (sort_values_desc col df).
Proof.
  induction df as [|fila df IH]; simpl; [constructor|].
  now apply insertar_desc_descendente.
Qed.

Lemma df_estatal_ordenado (csv : list fila_siap) (año : Z) :
  df_estatal csv año
  = sort_values_desc (fun fila => Volumenproduccion (medida fila))
                     (df_renombrado csv año).
Proof. reflexivity. Qed.

Lemma descendente_app {V : Type} (col : V -> R) (l1 l2 : frame V) :
  descendente col (l1 ++ l2) ->
  forall a b, In a l1 -> In b l2 -> col b.2 <= col a.2.
Proof.
  unfold descendente. induction l1 as [|x l1 IH]; simpl; intros Hs a b Ha Hb;
    [contradiction|].
  apply StronglySorted_inv in Hs as [Hs Hall].
  destruct Ha as [<-|Ha].
  - rewrite List.Forall_forall in Hall. apply Hall, in_or_app. now right.
  - now apply IH.
Qed.

(** X8. The rows of the state map hold the renamed groups, each once, in
    non-increasing order of volume.  The two tables split them without loss
    or repetition: the first holds the first 16 rows, and no entity of the
    second table has a greater volume than an entity of the first. *)
Theorem tablas_por_volumen (csv : list fila_siap) (año : Z) :
  let df := df_estatal csv año in
  Permutation (df_renombrado csv año) df
  /\ descendente (fun fila => Volumenproduccion (medida fila)) df
  /\ (tablas df).1 ++ (tablas df).2 = df
  /\ length (tablas df).1 = Nat.min 16 (length df)
  /\ forall a b, In a (tablas df).1 -> In b (tablas df).2 ->
       Volumenproduccion (medida b.2) <= Volumenproduccion (medida a.2).
Proof.
  intros df. subst df. rewrite df_estatal_ordenado.
  set (df := sort_values_desc _ _).
  assert (Hs : descendente (fun fila => Volumenproduccion (medida fila)) df)
    by apply sort_values_desc_descendente.
  split; [apply sort_values_desc_Permutation|]. split; [exact Hs|].
  unfold tablas. cbn [fst snd].
  split; [apply firstn_skipn|]. split; [apply length_firstn|].
  intros a b Ha Hb.
  apply (descendente_app (fun fila => Volumenproduccion (medida fila))
           (firstn 16 df) (skipn 16 df)); [|assumption..].
  now rewrite firstn_skipn.
Qed.

(** ** A state without production *)

Lemma series_sum_cota (l : list R) (v : R) :
  Forall (fun x => 0 <= x) l -> In v l -> 0 <= series_sum l /\ v <= series_sum l.
Proof.
  induction 1 as [|a l Ha Hl IH]; intros Hin; [contradiction|].
  rewrite series_sum_cons.
  assert (H0 : 0 <= series_sum l).
  { clear IH Hin. induction Hl as [|b l Hb Hl IH].
    - unfold series_sum. simpl. lra.
    - rewrite series_sum_cons. lra. }
  destruct Hin as [<-|Hin]; [lra|]. destruct (IH Hin). lra.
Qed.

Lemma series_sum_ceros (l : list R) :
  (forall v, In v l -> v = 0) -> series_sum l = 0.
Proof.
  induction l as [|a l IH]; intros H0; [reflexivity|].
  rewrite series_sum_cons, IH.
  - rewrite (H0 a) by now left. lra.
  - intros v Hv. apply H0. now right.
Qed.

Lemma filas_de_entidad_In (k : string) (filas : list fila_siap) (r : fila_siap) :
  In r (filas_de_entidad k filas) <-> In r filas /\ Nomestado r = Some k.
Proof.
  unfold filas_de_entidad. rewrite filter_In.
  destruct (Nomestado r) as [k'|]; [|intuition discriminate].
  destruct (String.eqb_spec k k') as [->|Hne]; intuition congruence.
Qed.

Lemma fila_df_estatal (csv : list fila_siap) (año : Z) (k : string) (m : medidas) :
  In (k, m) (df_por_entidad csv año) ->
  In (renombrar k,
      {| medida := {| Volumenproduccion := Volumenproduccion m;
                      Valorproduccion := Valorproduccion m / 1000000 |};
         log := np_log10 (Volumenproduccion m) |})
     (df_estatal csv año).
Proof.
  intros Hin. rewrite df_estatal_ordenado.
  apply (Permutation_in _ (sort_values_desc_Permutation _ _)).
  unfold df_renombrado, index_map. rewrite !map_map.
  apply in_map_iff. now exists (k, m).
Qed.

Lemma volumenes_df_estatal (csv : list fila_siap) (año : Z) (v : R) :
  In v (columna (fun fila => Volumenproduccion (medida fila)) (df_estatal csv año))
  -> exists k m, In (k, m) (df_por_entidad csv año) /\ v = Volumenproduccion m.
Proof.
  intros Hin. unfold columna in Hin. apply in_map_iff in Hin as (fila & <- & Hin).
  rewrite df_estatal_ordenado in Hin.
  apply (Permutation_in _ (Permutation_sym (sort_values_desc_Permutation _ _))) in Hin.
  unfold df_renombrado, index_map in Hin. rewrite !map_map in Hin.
  apply in_map_iff in Hin as ([k m] & <- & Hin). now exists k, m.
Qed.

(** X2. The state map does not remove the entities without production.
    When no volume of the year is negative and their total stays below
    [2^63], and the rows of one state all have the volume 0 while some row
    with a state name has a positive volume, the frame keeps the row of
    that state with [-inf] as its logarithm; the lower bound of the scale
    is [-inf], the upper bound is finite, the first ten ticks are NaN and,
    the power of NaN being NaN, labelled [nan]; only the last tick, the
    upper bound, carries a number. *)
Theorem escala_con_volumen_cero {P : Plataforma} (csv : list fila_siap)
    (geojson : list entidad) (año : Z) (c : Choropleth) (k : string) :
  potencia NaN = NaN ->
  sin_desbordamiento (volumenes (filas_del_año csv año)) ->
  (exists r, In r (filas_del_año csv año) /\ Nomestado r = Some k) ->
  (forall r, In r (filas_del_año csv año) -> Nomestado r = Some k ->
             Volumenproduccion (produccion r) = 0) ->
  (exists r, In r (filas_con_entidad (filas_del_año csv año))
             /\ 0 < Volumenproduccion (produccion r)) ->
  capa NOMGEO (df_estatal csv año) geojson = Ok c ->
  (exists fila, In (renombrar k, fila) (df_estatal csv año)
                /\ Volumenproduccion (medida fila) = 0
                /\ log fila = NInf)
  /\ zmin c = NInf
  /\ (exists hi, zmax c = Fin hi)
  /\ tickvals c = replicate 10 NaN ++ [zmax c]
  /\ ticktext c = replicate 10 "nan" ++ [etiqueta (zmax c)].
Proof.
  intros Hnan Hsin Hk Hcero (r1 & Hr1 & Hpos1) Hc.
  pose proof (volumenes_no_negativos _ Hsin) as Hnn.
  set (filas := filas_del_año csv año) in *.
  assert (Hgrupo : forall k', Forall (fun x => 0 <= x)
                                (volumenes (filas_de_entidad k' filas))).
  { intros k'. apply List.Forall_forall. intros v Hv.
    apply in_map_iff in Hv as (r & <- & Hr).
    apply filas_de_entidad_In in Hr as [Hr _]. now apply Hnn. }
  (* the row of the state without production *)
  apply index_df_por_entidad in Hk. apply in_map_iff in Hk as ([k0 m] & Hk0 & Hin).
  simpl in Hk0. subst k0.
  assert (Hm : Volumenproduccion m = 0).
  { rewrite (proj1 (total_por_entidad _ _ _ _ Hin)). fold filas.
    apply series_sum_ceros. intros v Hv.
    apply in_map_iff in Hv as (r & <- & Hr).
    apply filas_de_entidad_In in Hr as [Hr Hkr]. now apply Hcero. }
  pose proof (fila_df_estatal _ _ _ _ Hin) as Hfila. rewrite Hm in Hfila.
  split.
  { eexists. split; [exact Hfila|]. split; [reflexivity|apply np_log10_0]. }
  (* the scale *)
  set (values := columna (fun fila => Volumenproduccion (medida fila))
                         (df_estatal csv año)).
  assert (Hall : Forall (fun v => 0 <= v) values).
  { apply List.Forall_forall. intros v Hv.
    apply volumenes_df_estatal in Hv as (k' & m' & Hin' & ->).
    rewrite (proj1 (total_por_entidad _ _ _ _ Hin')). fold filas.
    destruct (filas_de_entidad k' filas) as [|r0 g] eqn:Hg.
    - unfold series_sum. simpl. lra.
    - apply (series_sum_cota _ (Volumenproduccion (produccion r0))).
      + rewrite <- Hg. apply Hgrupo.
      + now left. }
  assert (H0 : In 0 values).
  { unfold values, columna.
    apply (in_map (fun fila : string * fila_log => Volumenproduccion (medida fila.2)))
      in Hfila. exact Hfila. }
  assert (Hpos : exists v, In v values /\ 0 < v).
  { unfold filas_con_entidad in Hr1. apply filter_In in Hr1 as [Hr1 Hk1].
    destruct (Nomestado r1) as [k1|] eqn:Hn1; [|discriminate].
    assert (Hin1 : In k1 (index (df_por_entidad csv año))).
    { apply index_df_por_entidad. now exists r1. }
    apply in_map_iff in Hin1 as ([k' m1] & Hk' & Hin1). simpl in Hk'. subst k'.
    exists (Volumenproduccion m1). split.
    - pose proof (fila_df_estatal _ _ _ _ Hin1) as Hf1.
      apply (in_map (fun fila : string * fila_log => Volumenproduccion (medida fila.2)))
        in Hf1. exact Hf1.
    - rewrite (proj1 (total_por_entidad _ _ _ _ Hin1)). fold filas.
      assert (Hr : In (Volumenproduccion (produccion r1))
                      (volumenes (filas_de_entidad k1 filas))).
      { apply (in_map (fun r => Volumenproduccion (produccion r))).
        now apply filas_de_entidad_In. }
      destruct (series_sum_cota _ _ (Hgrupo k1) Hr). lra. }
  destruct (escala_con_cero values Hnan Hall H0 Hpos) as (Hmin & Hmax & Hmar & Het).
  rewrite capa_Ok in Hc. injection Hc as <-. cbn [zmin zmax tickvals ticktext].
  rewrite columna_log_estatal. fold values.
  split; [exact Hmin|]. split; [eexists; exact Hmax|]. split; assumption.
Qed.

Lemma escala_con_volumen_cero_witness :
  let fila k x := {| Anio := 2023; Nomestado := Some k; Idestado := 14;
                     Idmunicipio := 1;
                     produccion := {| Volumenproduccion := x;
                                      Valorproduccion := x |} |} in
  let csv := [fila "Jalisco" 100; fila "Colima" 0] in
  let geojson := [{| NOMGEO := "Jalisco" |}; {| NOMGEO := "Colima" |}] in
  exists c, capa (P := plataforma_ideal) NOMGEO (df_estatal csv 2023) geojson = Ok c
            /\ zmin c = NInf
            /\ tickvals c = replicate 10 NaN ++ [zmax c].
Proof.
  intros fila csv geojson.
  pose proof (capa_Ok (P := plataforma_ideal) NOMGEO (df_estatal csv 2023) geojson)
    as Hc.
  assert (H1 : sin_desbordamiento (volumenes (filas_del_año csv 2023))).
  { split; [repeat constructor; simpl; lra|unfold series_sum; simpl; lra]. }
  assert (H2 : exists r, In r (filas_del_año csv 2023) /\ Nomestado r = Some "Colima").
  { exists (fila "Colima" 0). split; [right; left; reflexivity|reflexivity]. }
  assert (H3 : forall r, In r (filas_del_año csv 2023) ->
                         Nomestado r = Some "Colima" ->
                         Volumenproduccion (produccion r) = 0).
  { intros r [<-|[<-|[]]]; [discriminate|reflexivity]. }
  assert (H4 : exists r, In r (filas_con_entidad (filas_del_año csv 2023))
                         /\ 0 < Volumenproduccion (produccion r)).
  { exists (fila "Jalisco" 100). split; [left; reflexivity|simpl; lra]. }
  destruct (escala_con_volumen_cero (P := plataforma_ideal) csv geojson 2023 _ "Colima"
              eq_refl H1 H2 H3 H4 Hc) as (_ & Hmin & _ & Hm & _).
  eexists. split; [exact Hc|]. split; assumption.
Defined.

(** ** The renamed state *)

Lemma renombrar_no_Mexico (x : string) : renombrar x <> "México".
Proof.
  unfold renombrar. destruct (String.eqb_spec x "México") as [->|Hne];
    [discriminate|exact Hne].
Qed.

Lemma index_df_renombrado (csv : list fila_siap) (año : Z) :
  index (df_renombrado csv año) = map renombrar (index (df_por_entidad csv año)).
Proof.
  unfold df_renombrado, index_map, index. rewrite !map_map. reflexivity.
Qed.

Lemma index_df_estatal (csv : list fila_siap) (año : Z) :
  Permutation (map renombrar (index (df_por_entidad csv año)))
              (index (df_estatal csv año)).
Proof.
  rewrite <- index_df_renombrado, df_estatal_ordenado.
  apply Permutation_map, sort_values_desc_Permutation.
Qed.

Lemma z_de_capa {P : Plataforma} {F : Type} (propiedad : F -> string) (df : frame fila_log)
    (features : list F) (c : Choropleth) (i : nat) (item : F) :
  capa propiedad df features = Ok c ->
  features !! i = Some item ->
  z c !! i = Some (valor_unido df (propiedad item)).
Proof.
  intros Hc Hi. rewrite capa_Ok in Hc. injection Hc as <-. cbn [z].
  change (map ?f ?l) with (f <$> l). now rewrite list_lookup_fmap, Hi.
Qed.

(** X9. In the state map the label México is always replaced by Estado de
    México before the join.  So a feature of the catalog that is named
    México never gets a value, whatever the data; and when the year has a
    row for the state México, the features named Estado de México do get
    one. *)
Theorem entidad_renombrada {P : Plataforma} (csv : list fila_siap) (geojson : list entidad)
    (año : Z) (c : Choropleth) (i : nat) (item : entidad) :
  capa NOMGEO (df_estatal csv año) geojson = Ok c ->
  geojson !! i = Some item ->
  ~ In "México" (index (df_estatal csv año))
  /\ (NOMGEO item = "México" -> z c !! i = Some None)
  /\ (NOMGEO item = "Estado de México" ->
      (exists r, In r (filas_del_año csv año) /\ Nomestado r = Some "México") ->
      exists v, z c !! i = Some (Some v)).
Proof.
  intros Hc Hi. rewrite (z_de_capa _ _ _ _ _ _ Hc Hi).
  assert (Hno : ~ In "México" (index (df_estatal csv año))).
  { intros Hin.
    apply (Permutation_in _ (Permutation_sym (index_df_estatal csv año))) in Hin.
    apply in_map_iff in Hin as (k & Hk & _). now apply renombrar_no_Mexico in Hk. }
  split; [exact Hno|]. split.
  - intros ->. now rewrite valor_unido_ausente.
  - intros -> Hr. apply index_df_por_entidad in Hr.
    assert (Hin : In "Estado de México" (index (df_estatal csv año))).
    { apply (Permutation_in _ (index_df_estatal csv año)).
      apply in_map_iff. exists "México". split; [reflexivity|exact Hr]. }
    destruct (loc_presente _ _ log Hin) as [v Hv].
    exists v. unfold valor_unido. now rewrite Hv.
Qed.

Lemma entidad_renombrada_witness :
  let csv := [{| Anio := 2023; Nomestado := Some "México"; Idestado := 15;
                 Idmunicipio := 1;
                 produccion := {| Volumenproduccion := 100;
                                  Valorproduccion := 5 |} |}] in
  let geojson := [{| NOMGEO := "México" |}; {| NOMGEO := "Estado de México" |}] in
  exists c, capa (P := plataforma_ideal) NOMGEO (df_estatal csv 2023) geojson = Ok c
            /\ z c !! 0%nat = Some None
            /\ exists v, z c !! 1%nat = Some (Some v).
Proof.
  intros csv geojson.
  pose proof (capa_Ok (P := plataforma_ideal) NOMGEO (df_estatal csv 2023) geojson)
    as Hc.
  destruct (entidad_renombrada csv geojson 2023 _ 0%nat _ Hc eq_refl)
    as (_ & H0 & _).
  destruct (entidad_renombrada csv geojson 2023 _ 1%nat _ Hc eq_refl)
    as (_ & _ & H1).
  eexists. split; [exact Hc|]. split; [now apply H0|].
  apply H1; [reflexivity|].
  eexists. split; [left; reflexivity|reflexivity].
Defined.

Lemma renombrar_inyectiva (claves : list string) :
  ~ In "Estado de México" claves ->
  List.NoDup claves -> List.NoDup (map renombrar claves).
Proof.
  intros Hno Hnd. apply NoDup_map_NoDup_ForallPairs; [|exact Hnd].
  intros x y Hx Hy. unfold renombrar.
  destruct (String.eqb_spec x "México") as [->|Hxm],
           (String.eqb_spec y "México") as [->|Hym]; intros Heq;
    try reflexivity; try exact Heq; subst; contradiction.
Qed.

Lemma fila_unica {V : Type} (df : frame V) (k : string) (v v' : V) :
  List.NoDup (index df) -> In (k, v) df -> In (k, v') df -> v' = v.
Proof.
  intros Hnd Hv Hv'.
  apply (In_buscar _ _ _ Hnd) in Hv. apply (In_buscar _ _ _ Hnd) in Hv'. congruence.
Qed.

(** X10. When no row of the year is named Estado de México, the labels of
    the frame of the state map are pairwise different, and the value the
    joined layer holds for a feature is null when the identifier of the
    feature is not a label of the frame, and otherwise a single number: the
    [log] cell of the one row under that identifier. *)
Theorem etiquetas_unicas {P : Plataforma} (csv : list fila_siap)
    (geojson : list entidad) (año : Z) (c : Choropleth) :
  (forall r, In r (filas_del_año csv año) ->
             Nomestado r <> Some "Estado de México") ->
  capa NOMGEO (df_estatal csv año) geojson = Ok c ->
  List.NoDup (index (df_estatal csv año))
  /\ forall (i : nat) (item : entidad),
       geojson !! i = Some item ->
       (~ In (NOMGEO item) (index (df_estatal csv año)) /\ z c !! i = Some None)
       \/ exists fila,
            In (NOMGEO item, fila) (df_estatal csv año)
            /\ (forall fila', In (NOMGEO item, fila') (df_estatal csv año) ->
                              fila' = fila)
            /\ z c !! i = Some (Some (Escalar (log fila))).
Proof.
  intros Hno Hc.
  assert (Hnd : List.NoDup (index (df_estatal csv año))).
  { apply (Permutation_NoDup (index_df_estatal csv año)).
    apply renombrar_inyectiva.
    - intros Hin. apply index_df_por_entidad in Hin as (r & Hr & Hk).
      now apply (Hno r).
    - apply ordenado_NoDup, groupby_ordenado. }
  split; [exact Hnd|]. intros i item Hi.
  rewrite (z_de_capa _ _ _ _ _ _ Hc Hi).
  destruct (in_dec string_dec (NOMGEO item) (index (df_estatal csv año)))
    as [Hin|Hout].
  - right. apply in_map_iff in Hin as ([k fila] & Hk & Hin). simpl in Hk. subst k.
    exists fila. split; [exact Hin|]. split.
    + intros fila' Hin'. now apply (fila_unica _ _ _ _ Hnd Hin Hin').
    + unfold valor_unido. now rewrite (loc_unico _ _ fila log Hnd Hin).
  - left. split; [exact Hout|]. now rewrite valor_unido_ausente.
Qed.

Lemma etiquetas_unicas_witness :
  let csv := [{| Anio := 2023; Nomestado := Some "México"; Idestado := 15;
                 Idmunicipio := 1;
                 produccion := {| Volumenproduccion := 100;
                                  Valorproduccion := 5 |} |}] in
  let geojson := [{| NOMGEO := "Estado de México" |}; {| NOMGEO := "Jalisco" |}] in
  exists c fila,
    capa (P := plataforma_ideal) NOMGEO (df_estatal csv 2023) geojson = Ok c
    /\ In ("Estado de México", fila) (df_estatal csv 2023)
    /\ z c !! 0%nat = Some (Some (Escalar (log fila)))
    /\ z c !! 1%nat = Some None.
Proof.
  intros csv geojson.
  pose proof (capa_Ok (P := plataforma_ideal) NOMGEO (df_estatal csv 2023) geojson)
    as Hc.
  assert (Hno : forall r, In r (filas_del_año csv 2023) ->
                          Nomestado r <> Some "Estado de México").
  { intros r [<-|[]]. discriminate. }
  destruct (etiquetas_unicas csv geojson 2023 _ Hno Hc) as [_ Hz].
  assert (Hin : In "Estado de México" (index (df_estatal csv 2023)))
    by (left; reflexivity).
  assert (Hout : ~ In "Jalisco" (index (df_estatal csv 2023))).
  { intros [H|[]]. discriminate H. }
  destruct (Hz 0%nat _ eq_refl) as [[Hn _]|(fila & Hfila & _ & Hz0)];
    [contradiction|].
  destruct (Hz 1%nat _ eq_refl) as [[_ Hz1]|(fila' & Hfila' & _)].
  - eexists. exists fila. split; [exact Hc|]. now repeat split.
  - exfalso. apply Hout. apply in_map_iff. now exists ("Jalisco", fila').
Defined.

Lemma length_filter_Permutation {A : Type} (p : A -> bool) (l l' : list A) :
  Permutation l l' -> length (List.filter p l) = length (List.filter p l').
Proof.
  induction 1; simpl;
    repeat match goal with |- context [if p ?x then _ else _] => destruct (p x) end;
    simpl; congruence.
Qed.

Lemma length_filter_map {A B : Type} (g : A -> B) (p : B -> bool) (l : list A) :
  length (List.filter p (map g l)) = length (List.filter (fun x => p (g x)) l).
Proof.
  induction l as [|x l IH]; simpl; [reflexivity|].
  destruct (p (g x)); simpl; now rewrite IH.
Qed.

Lemma length_filter_dos (p : string -> bool) (a b : string) (l : list string) :
  a <> b -> (forall x, p x = true <-> x = a \/ x = b) ->
  length (List.filter p l)
  = (count_occ string_dec l a + count_occ string_dec l b)%nat.
Proof.
  intros Hab Hp. induction l as [|x l IH]; simpl; [reflexivity|].
  destruct (string_dec x a) as [Hxa|Hxa]; destruct (string_dec x b) as [Hxb|Hxb].
  - congruence.
  - assert (Hpa : p x = true) by (apply Hp; now left). rewrite Hpa. simpl. lia.
  - assert (Hpb : p x = true) by (apply Hp; now right). rewrite Hpb. simpl. lia.
  - destruct (p x) eqn:Hpx; [|exact IH].
    apply Hp in Hpx as [?|?]; contradiction.
Qed.

(** X11. When the rows of the year name both México and Estado de México,
    the renaming leaves two rows under the label Estado de México; the
    lookup of that label then returns a Series of two cells, and that
    Series, not a number, is what the joined layer holds for the features
    named Estado de México. *)
Theorem serie_por_renombre {P : Plataforma} (csv : list fila_siap) (geojson : list entidad)
    (año : Z) (c : Choropleth) (i : nat) (item : entidad) :
  (exists r, In r (filas_del_año csv año) /\ Nomestado r = Some "México") ->
  (exists r, In r (filas_del_año csv año)
             /\ Nomestado r = Some "Estado de México") ->
  capa NOMGEO (df_estatal csv año) geojson = Ok c ->
  geojson !! i = Some item ->
  NOMGEO item = "Estado de México" ->
  exists xs, z c !! i = Some (Some (Serie xs)) /\ length xs = 2%nat.
Proof.
  intros Hm He Hc Hi Hgeo. rewrite (z_de_capa _ _ _ _ _ _ Hc Hi), Hgeo.
  apply index_df_por_entidad in Hm, He.
  set (p := fun k : string => String.eqb k "Estado de México").
  assert (Hlen : length (List.filter (fun fila : string * fila_log => p fila.1)
                                     (df_estatal csv año)) = 2%nat).
  { rewrite df_estatal_ordenado.
    rewrite <- (length_filter_Permutation _ _ _
                  (sort_values_desc_Permutation _ (df_renombrado csv año))).
    rewrite <- (length_filter_map fst p).
    change (map fst (df_renombrado csv año)) with (index (df_renombrado csv año)).
    rewrite index_df_renombrado, length_filter_map.
    assert (Hp : forall x, p (renombrar x) = true
                           <-> x = "México" \/ x = "Estado de México").
    { intros x. unfold p, renombrar.
      destruct (String.eqb_spec x "México") as [->|Hx].
      - simpl. intuition.
      - rewrite String.eqb_eq. intuition congruence. }
    rewrite (length_filter_dos _ "México" "Estado de México" _
               ltac:(discriminate) Hp).
    assert (Hnd : List.NoDup (index (df_por_entidad csv año)))
      by apply ordenado_NoDup, groupby_ordenado.
    rewrite (proj1 (NoDup_count_occ' string_dec _) Hnd _ Hm).
    rewrite (proj1 (NoDup_count_occ' string_dec _) Hnd _ He). reflexivity. }
  subst p. cbv beta in Hlen. unfold valor_unido, loc.
  destruct (List.filter _ (df_estatal csv año)) as [|a [|b [|d resto]]];
    try discriminate Hlen.
  eexists. split; reflexivity.
Qed.

Lemma serie_por_renombre_witness :
  let fila k x := {| Anio := 2023; Nomestado := Some k; Idestado := 15;
                     Idmunicipio := 1;
                     produccion := {| Volumenproduccion := x;
                                      Valorproduccion := x |} |} in
  let csv := [fila "México" 100; fila "Estado de México" 10] in
  exists c xs,
    capa (P := plataforma_ideal) NOMGEO (df_estatal csv 2023)
         [{| NOMGEO := "Estado de México" |}] = Ok c
    /\ z c !! 0%nat = Some (Some (Serie xs)) /\ length xs = 2%nat.
Proof.
  intros fila csv.
  pose proof (capa_Ok (P := plataforma_ideal) NOMGEO (df_estatal csv 2023)
                [{| NOMGEO := "Estado de México" |}]) as Hc.
  assert (H1 : exists r, In r (filas_del_año csv 2023) /\ Nomestado r = Some "México").
  { exists (fila "México" 100). split; [left; reflexivity|reflexivity]. }
  assert (H2 : exists r, In r (filas_del_año csv 2023)
                         /\ Nomestado r = Some "Estado de México").
  { exists (fila "Estado de México" 10). split; [right; left; reflexivity|reflexivity]. }
  destruct (serie_por_renombre csv _ 2023 _ 0%nat _ H1 H2 Hc eq_refl eq_refl)
    as (xs & Hz & Hlen).
  eexists. exists xs. split; [exact Hc|]. split; assumption.
Defined.

(** ** The names of the output files *)

Lemma str_int_inj (a b : Z) : str_int a = str_int b -> a = b.
Proof.
  unfold str_int. intros Heq.
  assert (Hisi : forall c : Z,
             NilZero.int_of_string (NilZero.string_of_int (Z.to_int c))
             = Some (Z.to_int c)).
  { intros c. apply NilZero.isi; destruct c as [|q|q]; try discriminate;
      simpl; intros [= H]; now apply DecimalPos.Unsigned.to_uint_nonnil in H. }
  apply DecimalZ.to_int_inj.
  pose proof (Hisi a) as Ha. rewrite Heq, Hisi in Ha. now injection Ha.
Qed.

Lemma append_cancel_r (s1 s2 t : string) :
  (s1 ++ t)%string = (s2 ++ t)%string -> s1 = s2.
Proof.
  intros Heq. apply (append_inj_length s1 t s2 t); [|exact Heq].
  apply (f_equal String.length) in Heq. rewrite !length_append in Heq. lia.
Qed.

Lemma nombre_inj (prefijo : string) (a b : Z) :
  (prefijo ++ str_int a ++ ".png")%string = (prefijo ++ str_int b ++ ".png")%string ->
  a = b.
Proof.
  intros Heq. apply append_inj_length in Heq as [_ Heq]; [|reflexivity].
  now apply append_cancel_r, str_int_inj in Heq.
Qed.

Lemma caracter_distinto (n : nat) (s t : string) :
  String.get n s <> String.get n t -> s <> t.
Proof. intros H ->. now apply H. Qed.

(** X12. The three maps name their output after the year, and no two
    outputs share a name: maps of the same kind for different years have
    different names, maps of different kinds always have, and none is
    named like one of the intermediate files [./0.png] and [./1.png]. *)
Theorem nombres_de_salida (a b : Z) :
  (entidades_png a = entidades_png b -> a = b)
  /\ (municipios_png a = municipios_png b -> a = b)
  /\ (exportaciones_png a = exportaciones_png b -> a = b)
  /\ entidades_png a <> municipios_png b
  /\ entidades_png a <> exportaciones_png b
  /\ municipios_png a <> exportaciones_png b
  /\ (forall p, In p [entidades_png a; municipios_png a; exportaciones_png a] ->
                p <> "./0.png" /\ p <> "./1.png").
Proof.
  split; [apply nombre_inj|]. split; [apply nombre_inj|]. split; [apply nombre_inj|].
  split; [apply (caracter_distinto 2); cbv; discriminate|].
  split; [apply (caracter_distinto 3); cbv; discriminate|].
  split; [apply (caracter_distinto 2); cbv; discriminate|].
  intros p [<-|[<-|[<-|[]]]]; split; apply (caracter_distinto 2); cbv; discriminate.
Qed.

Lemma nombres_de_salida_witness : entidades_png 2004 <> entidades_png 2023.
Proof.
  intros Heq. apply (nombres_de_salida 2004 2023) in Heq. discriminate Heq.
Defined.

(** ** What the municipal map and the export map do to the disk *)

Lemma plot_mapa_municipal_sin_filas {P : Plataforma} (falla : operacion -> bool)
    (geojson : list municipio) (geojson_borde : list entidad) (año : Z) (d : disco) :
  plot_mapa_municipal falla [] geojson geojson_borde año d
  = (Raise (KeyError "Volumenproduccion"), d).
Proof. reflexivity. Qed.

(** On a table with rows [plot_mapa_municipal] cannot fail before it
    writes: whatever the table and the catalogs hold, also for a year
    without rows, it ends in an error only when the write itself fails, and
    then the disk is unchanged; otherwise its one effect is the file
    [municipios_<year>.png] of 7680 x 4320. *)
Lemma plot_mapa_municipal_escribe {P : Plataforma} (falla : operacion -> bool)
    (csv : list fila_siap) (geojson : list municipio)
    (geojson_borde : list entidad) (año : Z) (d : disco) :
  csv <> [] ->
  plot_mapa_municipal falla csv geojson geojson_borde año d
  = if falla (WriteImage (municipios_png año))
    then (Raise (OSError (WriteImage (municipios_png año))), d)
    else (Ok tt, <[municipios_png año := figura 7680 4320]> d).
Proof.
  intros Hcsv. destruct csv as [|fila0 csv]; [contradiction|].
  unfold plot_mapa_municipal. rewrite capa_Ok. reflexivity.
Qed.

Lemma subtitulo_exportaciones_sin_total (df : frame comercio) :
  ~ In "TOTAL" (index df) ->
  subtitulo_exportaciones df = Raise (KeyError "TOTAL").
Proof.
  intros Hno. unfold subtitulo_exportaciones.
  rewrite !loc_ausente by assumption. reflexivity.
Qed.

Lemma subtitulo_exportaciones_con_total (df : frame comercio) (m : comercio) :
  List.NoDup (index df) -> In ("TOTAL", m) df ->
  subtitulo_exportaciones df
  = Ok ("Total: " ++ format_f 0 (f_div (Fin (CANTIDAD m)) (Fin 1000))
        ++ " toneladas con un valor de " ++ format_f 0 (Fin (VAL_MNX m))
        ++ " pesos")%string.
Proof.
  intros Hnd Hin. unfold subtitulo_exportaciones.
  rewrite !(loc_unico df "TOTAL" m _ Hnd Hin). reflexivity.
Qed.

Lemma total_en_indice (csv : list fila_inegi) (año : Z) :
  In "TOTAL" (index (df_exportaciones csv año))
  <-> exists r, In r (filas_exportadas csv año) /\ clave_destino r = "TOTAL".
Proof.
  unfold df_exportaciones. rewrite groupby_index. unfold exportaciones.
  fold (filas_exportadas csv año). rewrite map_map. cbn [PAIS_O_D cifras]. split.
  - intros (v & Hin). apply in_map_iff in Hin as (r & [= Hk _] & Hr).
    exists r. split; [exact Hr|]. unfold clave_destino.
    destruct (PAIS_O_D r); simpl in Hk; congruence.
  - intros (r & Hr & Hk). exists (cifras r). apply in_map_iff. exists r.
    split; [|exact Hr]. unfold clave_destino in Hk.
    destruct (PAIS_O_D r); simpl; congruence.
Qed.

Lemma mapa_exportaciones_sin_filas (falla : operacion -> bool) (año : Z) (d : disco) :
  mapa_exportaciones falla [] año d = (Raise (KeyError "CANTIDAD"), d).
Proof. reflexivity. Qed.

Lemma mapa_exportaciones_pasos (falla : operacion -> bool)
    (csv : list fila_inegi) (año : Z) (d : disco) :
  csv <> [] ->
  (~ In "TOTAL" (index (df_exportaciones csv año)) ->
   mapa_exportaciones falla csv año d = (Raise (KeyError "TOTAL"), d))
  /\ (In "TOTAL" (index (df_exportaciones csv año)) ->
      mapa_exportaciones falla csv año d
      = if falla (WriteImage (exportaciones_png año))
        then (Raise (OSError (WriteImage (exportaciones_png año))), d)
        else (Ok tt, <[exportaciones_png año := figura 7680 4320]> d)).
Proof.
  intros Hcsv. unfold mapa_exportaciones.
  assert (Hcol : columna_numerica csv "CANTIDAD" = Ok tt)
    by (destruct csv; [contradiction|reflexivity]).
  rewrite Hcol. split.
  - intros Hno. now rewrite subtitulo_exportaciones_sin_total.
  - intros Hsi. apply in_map_iff in Hsi as ([k m] & Hk & Hin). simpl in Hk. subst k.
    rewrite (subtitulo_exportaciones_con_total _ m);
      [reflexivity| |exact Hin].
    apply ordenado_NoDup, groupby_ordenado.
Qed.

Lemma total_con_filas (csv : list fila_inegi) (año : Z) :
  (exists r, In r (filas_exportadas csv año) /\ clave_destino r = "TOTAL") ->
  csv <> [].
Proof. intros (r & Hr & _) ->. exact Hr. Qed.

(** X13. [mapa_exportaciones] needs a total row.  On an export table with
    rows, when no export row of the year lacks a destination (or is already
    keyed TOTAL), the lookup of TOTAL raises [KeyError] and nothing is
    written; when there is one, the map fails only if the write fails, and
    otherwise its one effect is the file [exportaciones_<year>.png] of
    7680 x 4320.  On a table without rows the grouped frame has no numeric
    column: the lookup fails with a [KeyError] as well, and nothing is
    written. *)
Theorem mapa_exportaciones_total (falla : operacion -> bool)
    (csv : list fila_inegi) (año : Z) (d : disco) :
  (csv <> [] ->
   ~ (exists r, In r (filas_exportadas csv año) /\ clave_destino r = "TOTAL") ->
   mapa_exportaciones falla csv año d = (Raise (KeyError "TOTAL"), d))
  /\ ((exists r, In r (filas_exportadas csv año) /\ clave_destino r = "TOTAL") ->
      mapa_exportaciones falla csv año d
      = if falla (WriteImage (exportaciones_png año))
        then (Raise (OSError (WriteImage (exportaciones_png año))), d)
        else (Ok tt, <[exportaciones_png año := figura 7680 4320]> d))
  /\ (csv = [] ->
      exists clave,
        mapa_exportaciones falla csv año d = (Raise (KeyError clave), d)).
Proof.
  split; [|split].
  - intros Hcsv. rewrite <- total_en_indice.
    now apply mapa_exportaciones_pasos.
  - intros Ht. pose proof (total_con_filas _ _ Ht) as Hcsv.
    rewrite <- total_en_indice in Ht. now apply mapa_exportaciones_pasos.
  - intros ->. eexists. apply mapa_exportaciones_sin_filas.
Qed.

Lemma mapa_exportaciones_total_witness :
  mapa_exportaciones (fun _ => false)
    [{| ANIO := 2023; TIPO := "Exportaciones"; PAIS_O_D := Some "USA";
        cifras := {| CANTIDAD := 5; VAL_MNX := 50 |} |}] 2023 ∅
  = (Raise (KeyError "TOTAL"), ∅).
Proof.
  apply (mapa_exportaciones_total (fun _ => false)); [discriminate|].
  intros (r & [<-|[]] & Hk). discriminate Hk.
Defined.

(** ** What the state map does to the disk *)

(** X14. [plot_mapa_estatal] touches three paths only: every other file is
    after the run as it was before, whether the run fails or not.  On a
    table without rows it stops at line 42 and the disk is as it was.  The
    composite is written only by a run that reaches the save: when the run
    is ended by the lookup of line 42, by a write or by an open, the file
    [entidades_<year>.png] is as it was.  A run without error read a table
    with rows and leaves the disk as it was, but for the new composite and
    for [./0.png] and [./1.png], which are gone even if they were there
    before. *)
Theorem disco_tras_plot_mapa_estatal {P : Plataforma} (falla : operacion -> bool)
    (csv : list fila_siap) (geojson : list entidad) (año : Z)
    (d d' : disco) (r : resultado unit) :
  plot_mapa_estatal falla csv geojson año d = (r, d') ->
  (forall p, p <> "./0.png" -> p <> "./1.png" -> p <> entidades_png año ->
             d' !! p = d !! p)
  /\ (csv = [] -> r = Raise (KeyError "Valorproduccion") /\ d' = d)
  /\ (forall e, r = Raise e ->
        e <> OSError (ImageSave (entidades_png año)) ->
        e <> OSError (OsRemove "./0.png") -> e <> OSError (OsRemove "./1.png") ->
        d' !! entidades_png año = d !! entidades_png año)
  /\ (r = Ok tt ->
      csv <> []
      /\ d' = delete "./1.png"
                (delete "./0.png"
                   (<[entidades_png año :=
                        unir_imagenes (figura 1280 720) (figura 1280 560)]> d))).
Proof.
  intros Hrun.
  destruct (plot_mapa_estatal_con_filas _ _ _ _ _ _ _ Hrun)
    as [(Hcsv & -> & ->)|[Hcsv _]].
  { split; [reflexivity|]. split; [now split|]. split; [reflexivity|discriminate]. }
  rewrite plot_mapa_estatal_pasos in Hrun by assumption.
  pose proof (entidades_png_no_0 año) as Hp0.
  pose proof (entidades_png_no_1 año) as Hp1.
  repeat match type of Hrun with
         | (if ?c then _ else _) = _ => destruct c
         end;
    injection Hrun as <- <-;
    (split; [intros p H0 H1 Hp
            |split; [intros Hc; contradiction
                    |split; [intros e [= <-] Hs Hr0 Hr1|intros [=]]]]);
    try congruence;
    rewrite ?lookup_delete_ne, ?lookup_insert_ne by congruence;
    try reflexivity.
  split; [exact Hcsv|].
  apply map_eq. intros p.
  destruct (decide (p = "./1.png")) as [->|H1];
    [now rewrite !lookup_delete_eq|].
  rewrite !(lookup_delete_ne _ "./1.png") by congruence.
  destruct (decide (p = "./0.png")) as [->|H0];
    [now rewrite !lookup_delete_eq|].
  rewrite !(lookup_delete_ne _ "./0.png") by congruence.
  destruct (decide (p = entidades_png año)) as [->|Hp];
    [now rewrite !lookup_insert_eq|].
  now rewrite !lookup_insert_ne by congruence.
Qed.

Lemma disco_tras_plot_mapa_estatal_witness :
  let csv := [{| Anio := 2023; Nomestado := Some "Jalisco"; Idestado := 14;
                 Idmunicipio := 1;
                 produccion := {| Volumenproduccion := 100;
                                  Valorproduccion := 5000 |} |}] in
  let d : disco := {[ "./0.png" := figura 10 10; "./notas.png" := figura 20 20 ]} in
  exists d' : disco,
    plot_mapa_estatal (P := plataforma_ideal) (fun _ => false) csv
      [{| NOMGEO := "Jalisco" |}] 2023 d
    = (Ok tt, d')
    /\ d' !! "./notas.png" = Some (figura 20 20)
    /\ d' !! "./0.png" = None.
Proof.
  intros csv d.
  pose proof (plot_mapa_estatal_pasos (P := plataforma_ideal) (fun _ => false)
                csv [{| NOMGEO := "Jalisco" |}] 2023 d ltac:(discriminate)) as Hrun.
  cbv beta iota zeta in Hrun.
  destruct (disco_tras_plot_mapa_estatal _ _ _ _ _ _ _ Hrun) as (Hotros & _ & _ & Hd).
  eexists. split; [exact Hrun|]. split.
  - rewrite Hotros by (apply (caracter_distinto 2); cbv; discriminate).
    reflexivity.
  - rewrite lookup_delete_ne by discriminate. apply lookup_delete_eq.
Defined.

(** ** The outline layer *)

(** The outline layer of the municipal map has one location per state
    of the catalog, in catalog order, and the value 1 for each of them. *)
Lemma capa_borde_map (geojson_borde : list entidad) :
  capa_borde geojson_borde
  = (map NOMGEO geojson_borde, map (fun _ => 1%Z) geojson_borde).
Proof.
  unfold capa_borde.
  assert (H : forall acc : list string * list Z,
             fold_left
               (fun acc item =>
                  let geo := NOMGEO item in (acc.1 ++ [geo], acc.2 ++ [1%Z]))
               geojson_borde acc
             = (acc.1 ++ map NOMGEO geojson_borde,
                acc.2 ++ map (fun _ => 1%Z) geojson_borde)).
  { induction geojson_borde as [|item resto IH]; intros [ubic vals]; simpl.
    - now rewrite !app_nil_r.
    - rewrite IH. simpl. now rewrite <- !app_assoc. }
  apply (H ([], [])).
Qed.

(** ** The values of the municipal map *)

Lemma index_filter_NoDup {V : Type} (p : string * V -> bool) (df : frame V) :
  List.NoDup (index df) -> List.NoDup (index (List.filter p df)).
Proof.
  induction df as [|[k v] df IH]; simpl; intros Hnd; [constructor|].
  apply List.NoDup_cons_iff in Hnd as [Hno Hnd].
  destruct (p (k, v)); simpl; [|now apply IH].
  constructor; [|now apply IH].
  intros Hin. apply Hno. apply in_map_iff in Hin as (fila & Hk & Hin).
  apply filter_In in Hin as [Hin _]. apply in_map_iff. now exists fila.
Qed.

Lemma df_municipal_NoDup (csv : list fila_siap) (año : Z) :
  List.NoDup (index (df_municipal csv año)).
Proof.
  unfold df_municipal, index. rewrite map_map. cbn [fst].
  change (map (fun x : string * medidas => x.1) ?l) with (index l).
  unfold df_con_produccion. apply index_filter_NoDup.
  apply ordenado_NoDup, groupby_ordenado.
Qed.

(** X15. In the municipal map, when no raw volume of the year is negative
    and their total stays below [2^63], the value the joined layer holds
    for a feature is null when the identifier of the feature is not a key
    left in the frame, and otherwise one finite number: the [log] cell of
    the row of that municipality, whose summed volume is positive.  It is
    never a Series, an infinity or NaN, and it lies within the domain of
    the colour bar. *)
Theorem valores_municipales {P : Plataforma} (csv : list fila_siap)
    (geojson : list municipio) (año : Z) (c : Choropleth) (i : nat)
    (item : municipio) :
  sin_desbordamiento (volumenes (filas_del_año csv año)) ->
  capa CVEGEO (df_municipal csv año) geojson = Ok c ->
  geojson !! i = Some item ->
  (~ In (CVEGEO item) (index (df_con_produccion csv año)) /\ z c !! i = Some None)
  \/ exists (fila : fila_log) (x : R),
       In (CVEGEO item, fila) (df_municipal csv año)
       /\ In (CVEGEO item, medida fila) (df_por_municipio csv año)
       /\ 0 < Volumenproduccion (medida fila)
       /\ log fila = Fin x
       /\ z c !! i = Some (Some (Escalar (Fin x)))
       /\ f_le (zmin c) (Fin x)
       /\ f_le (Fin x) (zmax c).
Proof.
  intros Hsin Hc Hi. pose proof (z_de_capa _ _ _ _ _ _ Hc Hi) as Hz.
  pose proof (volumenes_no_negativos _ Hsin) as Hcsv.
  destruct (in_dec string_dec (CVEGEO item) (index (df_con_produccion csv año)))
    as [Hin|Hout].
  - right. apply in_map_iff in Hin as ([k m] & Hk & Hin). simpl in Hk. subst k.
    pose proof (proj1 (df_con_produccion_In _ _ _ _) Hin) as [Hgrp Hne].
    assert (Hpos : 0 < Volumenproduccion m).
    { pose proof (df_con_produccion_positivo csv año Hcsv) as Hall.
      rewrite List.Forall_forall in Hall. apply Hall.
      apply in_map_iff. now exists (CVEGEO item, m). }
    set (fila := {| medida := m; log := np_log10 (Volumenproduccion m) |}).
    assert (Hfila : In (CVEGEO item, fila) (df_municipal csv año)).
    { unfold df_municipal. apply in_map_iff. now exists (CVEGEO item, m). }
    assert (Hlog : log fila = Fin (log10 (Volumenproduccion m))).
    { unfold fila. cbn [log]. now apply np_log10_pos. }
    assert (Hval : z c !! i
                   = Some (Some (Escalar (Fin (log10 (Volumenproduccion m)))))).
    { rewrite Hz. unfold valor_unido.
      rewrite (loc_unico _ _ _ log (df_municipal_NoDup csv año) Hfila).
      now rewrite Hlog. }
    exists fila, (log10 (Volumenproduccion m)).
    split; [exact Hfila|]. split; [exact Hgrp|]. split; [exact Hpos|].
    split; [exact Hlog|]. split; [exact Hval|].
    rewrite capa_Ok in Hc. injection Hc as <-. cbn [zmin zmax].
    unfold crear_escala. cbn [min_val max_val].
    assert (Hcol : In (Fin (log10 (Volumenproduccion m)))
                      (columna log (df_municipal csv año))).
    { unfold columna. apply in_map_iff.
      exists (CVEGEO item, fila). split; [exact Hlog|exact Hfila]. }
    split.
    + now apply (series_min_spec _ _ Hcol eq_refl).
    + now apply (series_max_spec _ _ Hcol eq_refl).
  - left. split; [exact Hout|]. rewrite Hz. f_equal. apply valor_unido_ausente.
    unfold df_municipal, index. rewrite map_map. exact Hout.
Qed.

Lemma valores_municipales_witness :
  let fila b x := {| Anio := 2023; Nomestado := Some "Michoacán"; Idestado := 16;
                     Idmunicipio := b;
                     produccion := {| Volumenproduccion := x;
                                      Valorproduccion := 50 * x |} |} in
  let csv := [fila 102%N 100; fila 53%N 0] in
  let geojson := [{| CVEGEO := "16102" |}; {| CVEGEO := "16053" |}] in
  exists c x,
    capa (P := plataforma_ideal) CVEGEO (df_municipal csv 2023) geojson = Ok c
    /\ z c !! 0%nat = Some (Some (Escalar (Fin x)))
    /\ z c !! 1%nat = Some None.
Proof.
  intros fila csv geojson.
  pose proof (capa_Ok (P := plataforma_ideal) CVEGEO (df_municipal csv 2023) geojson)
    as Hc.
  assert (Hsin : sin_desbordamiento (volumenes (filas_del_año csv 2023))).
  { split; [repeat constructor; simpl; lra|unfold series_sum; simpl; lra]. }
  assert (Hdf : df_con_produccion csv 2023 = [("16102", produccion (fila 102%N 100))]).
  { assert (Hg : df_por_municipio csv 2023
                 = [("16053", produccion (fila 53%N 0));
                    ("16102", produccion (fila 102%N 100))]) by reflexivity.
    unfold df_con_produccion. rewrite Hg.
    cbn [List.filter snd fila produccion Volumenproduccion].
    destruct (Req_dec_T 0 0); [|contradiction].
    destruct (Req_dec_T 100 0); [lra|reflexivity]. }
  destruct (valores_municipales csv geojson 2023 _ 0%nat _ Hsin Hc eq_refl)
    as [[Hno _]|(f0 & x & _ & _ & _ & _ & Hz0 & _)].
  { exfalso. apply Hno. rewrite Hdf. now left. }
  destruct (valores_municipales csv geojson 2023 _ 1%nat _ Hsin Hc eq_refl)
    as [[_ Hz1]|(f1 & x1 & Hf1 & _)].
  - eexists. exists x. split; [exact Hc|]. split; assumption.
  - exfalso.
    apply (in_map fst) in Hf1. unfold df_municipal in Hf1.
    rewrite map_map, Hdf in Hf1. destruct Hf1 as [H|[]]. discriminate H.
Defined.

(** ** The whole script *)

Lemma plot_mapa_estatal_sin_fallos {P : Plataforma} (falla : operacion -> bool)
    (csv : list fila_siap) (geojson : list entidad) (año : Z) (d : disco) :
  csv <> [] ->
  (forall op, falla op = false) ->
  plot_mapa_estatal falla csv geojson año d
  = (Ok tt,
     delete "./1.png"
       (delete "./0.png"
          (<[entidades_png año := unir_imagenes (figura 1280 720) (figura 1280 560)]>
             (<["./1.png" := figura 1280 560]>
                (<["./0.png" := figura 1280 720]> d))))).
Proof.
  intros Hcsv Hf. rewrite plot_mapa_estatal_pasos by assumption. now rewrite !Hf.
Qed.

Ltac separar_claves Hp :=
  simpl in Hp;
  repeat match type of Hp with
         | ~ (_ \/ _) => apply Decidable.not_or in Hp; destruct Hp as [? Hp]
         end.

Ltac buscar_en_disco :=
  repeat first
    [ rewrite lookup_insert_eq
    | rewrite lookup_delete_eq
    | rewrite lookup_insert_ne by (discriminate || congruence)
    | rewrite lookup_delete_ne by (discriminate || congruence) ];
  try reflexivity.

(** X16. The script body runs the six maps one after the other; take a run
    in which no disk call fails.  On a production table without rows it
    stops in the first map, at line 42, and writes nothing.  On a
    production table with rows the four production maps are written: the
    disk then holds the two state composites of 1280 x 1280 and the two
    municipal maps of 7680 x 4320, neither [./0.png] nor [./1.png], and
    every file that is none of the outputs as it was.  When the export
    table has a total row for 2004 and for 2023, the script ends without
    error and the two export maps of 7680 x 4320 are written as well.  When
    it has no total row for 2004, the script stops there with a [KeyError],
    on TOTAL when the table has rows: no export map is written. *)
Theorem main_completo {P : Plataforma} (falla : operacion -> bool)
    (siap : list fila_siap) (inegi : list fila_inegi)
    (mexico : list entidad) (mexico2023 : list municipio) (d : disco) :
  (forall op, falla op = false) ->
  let compuesta := unir_imagenes (figura 1280 720) (figura 1280 560) in
  let total año :=
    exists r, In r (filas_exportadas inegi año) /\ clave_destino r = "TOTAL" in
  (siap = [] ->
   main falla siap inegi mexico mexico2023 d
   = (Raise (KeyError "Valorproduccion"), d))
  /\ (siap <> [] ->
      exists (r : resultado unit) (d' : disco),
        main falla siap inegi mexico mexico2023 d = (r, d')
        /\ d' !! "./entidades_2004.png" = Some compuesta
        /\ d' !! "./entidades_2023.png" = Some compuesta
        /\ d' !! "./municipios_2004.png" = Some (figura 7680 4320)
        /\ d' !! "./municipios_2023.png" = Some (figura 7680 4320)
        /\ d' !! "./0.png" = None
        /\ d' !! "./1.png" = None
        /\ (total 2004%Z -> total 2023%Z ->
            r = Ok tt
            /\ d' !! "./exportaciones_2004.png" = Some (figura 7680 4320)
            /\ d' !! "./exportaciones_2023.png" = Some (figura 7680 4320))
        /\ (~ total 2004%Z ->
            (exists clave, r = Raise (KeyError clave))
            /\ (inegi <> [] -> r = Raise (KeyError "TOTAL"))
            /\ d' !! "./exportaciones_2004.png" = d !! "./exportaciones_2004.png"
            /\ d' !! "./exportaciones_2023.png" = d !! "./exportaciones_2023.png")
        /\ forall p,
             ~ In p ["./0.png"; "./1.png"; "./entidades_2004.png";
                     "./entidades_2023.png"; "./municipios_2004.png";
                     "./municipios_2023.png"; "./exportaciones_2004.png";
                     "./exportaciones_2023.png"] ->
             d' !! p = d !! p).
Proof.
  intros Hf compuesta total. split.
  { intros ->. reflexivity. }
  intros Hsiap.
  assert (Hexp : forall año (d0 : disco),
             (total año ->
              mapa_exportaciones falla inegi año d0
              = (Ok tt, <[exportaciones_png año := figura 7680 4320]> d0))
             /\ (~ total año ->
                 mapa_exportaciones falla inegi año d0
                 = (Raise (KeyError (match inegi with
                                     | [] => "CANTIDAD"
                                     | _ => "TOTAL"
                                     end)), d0))).
  { intros año d0. split.
    - intros Ht. pose proof (total_con_filas _ _ Ht) as Hcsv.
      unfold total in Ht. rewrite <- total_en_indice in Ht.
      rewrite (proj2 (mapa_exportaciones_pasos falla inegi año d0 Hcsv) Ht).
      now rewrite Hf.
    - intros Hn. destruct inegi as [|fila0 inegi'] eqn:Hi.
      + apply mapa_exportaciones_sin_filas.
      + unfold total in Hn. rewrite <- total_en_indice in Hn.
        now apply mapa_exportaciones_pasos. }
  assert (Hdec : forall año, total año \/ ~ total año).
  { intros año. unfold total.
    destruct (List.Exists_dec (fun r => clave_destino r = "TOTAL")
                (filas_exportadas inegi año) (fun r => string_dec _ _)) as [H|H];
      rewrite List.Exists_exists in H; [now left|now right]. }
  unfold main, mbind, IO_bind.
  rewrite !plot_mapa_estatal_sin_fallos by assumption.
  rewrite plot_mapa_municipal_escribe, Hf by assumption.
  rewrite plot_mapa_municipal_escribe, Hf by assumption.
  change (entidades_png 2004) with "./entidades_2004.png".
  change (entidades_png 2023) with "./entidades_2023.png".
  change (municipios_png 2004) with "./municipios_2004.png".
  change (municipios_png 2023) with "./municipios_2023.png".
  set (d4 := <["./municipios_2023.png" := figura 7680 4320]> (_ : disco)).
  assert (Hd4 : forall p, ~ In p ["./0.png"; "./1.png"; "./entidades_2004.png";
                                  "./entidades_2023.png"; "./municipios_2004.png";
                                  "./municipios_2023.png"] ->
                          d4 !! p = d !! p).
  { intros p Hp. separar_claves Hp. subst d4. buscar_en_disco. }
  assert (H4 : d4 !! "./entidades_2004.png" = Some compuesta
               /\ d4 !! "./entidades_2023.png" = Some compuesta
               /\ d4 !! "./municipios_2004.png" = Some (figura 7680 4320)
               /\ d4 !! "./municipios_2023.png" = Some (figura 7680 4320)
               /\ d4 !! "./0.png" = None /\ d4 !! "./1.png" = None).
  { subst d4. repeat split; buscar_en_disco. }
  destruct H4 as (He04 & He23 & Hm04 & Hm23 & H0 & H1).
  destruct (Hdec 2004%Z) as [Ht04|Hn04].
  - rewrite (proj1 (Hexp 2004%Z d4) Ht04).
    change (exportaciones_png 2004) with "./exportaciones_2004.png".
    destruct (Hdec 2023%Z) as [Ht23|Hn23].
    + rewrite (proj1 (Hexp 2023%Z _) Ht23).
      change (exportaciones_png 2023) with "./exportaciones_2023.png".
      do 2 eexists. split; [reflexivity|].
      split; [buscar_en_disco; exact He04|]. split; [buscar_en_disco; exact He23|].
      split; [buscar_en_disco; exact Hm04|]. split; [buscar_en_disco; exact Hm23|].
      split; [buscar_en_disco; exact H0|]. split; [buscar_en_disco; exact H1|].
      split; [intros _ _; repeat split; buscar_en_disco|].
      split; [intros Hn; contradiction|].
      intros p Hp. separar_claves Hp. buscar_en_disco. apply Hd4. simpl. tauto.
    + rewrite (proj2 (Hexp 2023%Z _) Hn23).
      do 2 eexists. split; [reflexivity|].
      split; [buscar_en_disco; exact He04|]. split; [buscar_en_disco; exact He23|].
      split; [buscar_en_disco; exact Hm04|]. split; [buscar_en_disco; exact Hm23|].
      split; [buscar_en_disco; exact H0|]. split; [buscar_en_disco; exact H1|].
      split; [intros _ Hn; contradiction|].
      split; [intros Hn; contradiction|].
      intros p Hp. separar_claves Hp. buscar_en_disco. apply Hd4. simpl. tauto.
  - rewrite (proj2 (Hexp 2004%Z d4) Hn04).
    do 2 eexists. split; [reflexivity|].
    split; [exact He04|]. split; [exact He23|].
    split; [exact Hm04|]. split; [exact Hm23|].
    split; [exact H0|]. split; [exact H1|].
    split; [intros Hn; contradiction|].
    split.
    + intros _. split; [eexists; reflexivity|].
      split; [intros Hne; destruct inegi; [contradiction|reflexivity]|].
      split; apply Hd4; simpl; intuition discriminate.
    + intros p Hp. separar_claves Hp. apply Hd4. simpl. tauto.
Qed.

Lemma main_completo_witness :
  let siap := [{| Anio := 2023; Nomestado := Some "Jalisco"; Idestado := 14;
                  Idmunicipio := 1;
                  produccion := {| Volumenproduccion := 100;
                                   Valorproduccion := 5000 |} |}] in
  let fila año := {| ANIO := año; TIPO := "Exportaciones"; PAIS_O_D := None;
                     cifras := {| CANTIDAD := 5; VAL_MNX := 50 |} |} in
  let mexico := [{| NOMGEO := "Jalisco" |}] in
  let mexico2023 := [{| CVEGEO := "14001" |}] in
  exists d' : disco,
    main (P := plataforma_ideal) (fun _ => false) siap [fila 2004%Z; fila 2023%Z]
         mexico mexico2023 ∅
    = (Ok tt, d')
    /\ d' !! "./exportaciones_2023.png" = Some (figura 7680 4320)
    /\ d' !! "./0.png" = None.
Proof.
  intros siap fila mexico mexico2023.
  destruct (main_completo (P := plataforma_ideal) (fun _ => false) siap
              [fila 2004%Z; fila 2023%Z] mexico mexico2023 ∅ (fun _ => eq_refl))
    as [_ Hrun].
  destruct (Hrun ltac:(discriminate))
    as (r & d' & Hmain & _ & _ & _ & _ & H0 & _ & Hok & _).
  assert (Ht04 : exists r, In r (filas_exportadas [fila 2004%Z; fila 2023%Z] 2004)
                           /\ clave_destino r = "TOTAL").
  { exists (fila 2004%Z). split; [left; reflexivity|reflexivity]. }
  assert (Ht23 : exists r, In r (filas_exportadas [fila 2004%Z; fila 2023%Z] 2023)
                           /\ clave_destino r = "TOTAL").
  { exists (fila 2023%Z). split; [left; reflexivity|reflexivity]. }
  destruct (Hok Ht04 Ht23) as (-> & _ & H23).
  exists d'. split; [exact Hmain|]. split; assumption.
Defined.

(** ** Negative volumes and the scale *)

Lemma dropna_idempotente (s : list float64) : dropna (dropna s) = dropna s.
Proof.
  unfold dropna. induction s as [|x s IH]; simpl; [reflexivity|].
  destruct (isnan x) eqn:Hx; simpl; [exact IH|]. now rewrite Hx, IH.
Qed.

Lemma dropna_np_log10 (values : list R) :
  dropna (map np_log10 values)
  = map np_log10
      (List.filter (fun v => if Rle_dec 0 v then true else false) values).
Proof.
  unfold dropna. induction values as [|v values IH]; simpl; [reflexivity|].
  destruct (Rle_dec 0 v) as [Hv|Hv].
  - rewrite np_log10_no_nan by assumption. simpl. now rewrite IH.
  - unfold np_log10 at 1. destruct (Rlt_dec 0 v); [lra|].
    destruct (Req_dec_T v 0); [lra|]. simpl. exact IH.
Qed.

(** X17. A negative summed volume makes its ["log"] cell NaN, and NaN cells
    are skipped when the bounds are taken: the scale of a column of volumes
    is the scale of its non-negative volumes alone, bounds, ticks and
    labels. *)
Theorem escala_sin_negativos {P : Plataforma} (values : list R) :
  crear_escala (map np_log10 values)
  = crear_escala
      (map np_log10
           (List.filter (fun v => if Rle_dec 0 v then true else false) values))
  /\ forall v, In v values -> v < 0 -> np_log10 v = NaN.
Proof.
  split.
  - unfold crear_escala, series_min, series_max.
    rewrite <- dropna_np_log10, dropna_idempotente. reflexivity.
  - intros v _ Hv. unfold np_log10. destruct (Rlt_dec 0 v); [lra|].
    destruct (Req_dec_T v 0); [lra|reflexivity].
Qed.
